(** * ShellHub agent: reverse-tunnel handlers, supervisor and refresh loop

    Shallow embedding of [main.go] (function [NewAgentServer]): the three
    tunnel handlers ([tun.ConnHandler], [tun.HTTPHandler],
    [tun.CloseHandler]), the reconnection goroutine, the identity refresh
    loop and the start-up checks, followed by the properties of the
    specification that were checked against them. *)

From stdpp Require Import gmap strings list.
From Stdlib Require Import ZArith NArith Lia.

Open Scope string_scope.

(** ** Go's [strings] package, as far as [main.go] uses it *)

Module GoStrings.

(** [strings.HasPrefix s p]. *)
Fixpoint HasPrefix (s p : string) {struct p} : bool :=
  match p with
  | EmptyString => true
  | String b p' =>
      match s with
      | EmptyString => false
      | String a s' => if Ascii.eqb a b then HasPrefix s' p' else false
      end
  end.

(** [strings.Contains s sub]. *)
Fixpoint Contains (s sub : string) : bool :=
  HasPrefix s sub ||
  match s with
  | EmptyString => false
  | String _ s' => Contains s' sub
  end.

(** [strings.Split s sep] for a non-empty separator (the only use in
    [main.go] is [strings.Split(sshEndpoint, ":")]).  The text is
    scanned once from the left; [cur] is the piece read so far and
    [skip] counts the bytes of a separator that has just been matched
    and still has to be stepped over. *)
Fixpoint Split_from (sep : string) (skip : nat) (cur s : string) : list string :=
  match s with
  | EmptyString => [cur]
  | String a s' =>
      match skip with
      | S k => Split_from sep k cur s'
      | O =>
          if HasPrefix s sep
          then cur :: Split_from sep (String.length sep - 1) EmptyString s'
          else Split_from sep 0 (cur ++ String a EmptyString) s'
      end
  end.

Definition Split (s sep : string) : list string := Split_from sep 0 EmptyString s.

(** [strings.NewReplacer(old1, new1, old2, new2, ...)]: the pairs in
    argument order. *)
Definition Replacer := list (string * string).

(** The pair chosen at the current position: among the [old] strings
    that are a prefix of the remaining text, the one given first in the
    argument list.  The source only uses non-empty [old] strings; an
    empty one is never selected here. *)
Fixpoint lookup (r : Replacer) (s : string) : option (string * string) :=
  match r with
  | [] => None
  | (old, new) :: r' =>
      if negb (String.eqb old EmptyString) && HasPrefix s old
      then Some (old, new)
      else lookup r' s
  end.

(** [Replacer.Replace]: replacements are made in the order in which
    they appear in the text, matches do not overlap and replaced text is
    not scanned again. *)
Fixpoint Replace_from (r : Replacer) (skip : nat) (s : string) : string :=
  match s with
  | EmptyString => EmptyString
  | String a s' =>
      match skip with
      | S k => Replace_from r k s'
      | O =>
          match lookup r s with
          | Some (old, new) => new ++ Replace_from r (String.length old - 1) s'
          | None => String a (Replace_from r 0 s')
          end
      end
  end.

Definition Replace (r : Replacer) (s : string) : string := Replace_from r 0 s.

End GoStrings.

(** ** Connection identifier (main.go, lines 224-232) *)

(** [l[0]] on the result of [strings.Split]: with a non-empty separator
    the slice always has a first element (lemma [Split_from_cons]), so the
    index never goes out of range. *)
Definition index0 (l : list string) : string :=
  match l with
  | x :: _ => x
  | [] => EmptyString
  end.

Definition sshHost (sshEndpoint : string) : string :=
  index0 (GoStrings.Split sshEndpoint ":").

Definition sshid (namespace tenantName sshEndpoint : string) : string :=
  GoStrings.Replace
    [ ("{namespace}", namespace);
      ("{tenantName}", tenantName);
      ("{sshEndpoint}", sshHost sshEndpoint) ]
    "{namespace}.{tenantName}@{sshEndpoint}".

(** ** Errors *)

(** Go [error] values.  [ErrWrap] is an error whose [Unwrap] method
    returns [inner] (as built by [fmt.Errorf] with [%w]). *)
Inductive error : Type :=
| ErrUnexpectedEOF                          (* io.ErrUnexpectedEOF *)
| ErrNew (msg : string)                     (* any other leaf error *)
| ErrWrap (msg : string) (inner : error).

#[global] Instance error_eq_dec : EqDecision error.
Proof. solve_decision. Defined.

(** [errors.Is(err, target)]: [err] or an error in its [Unwrap] chain
    equals [target]; a nil [err] matches nothing. *)
Fixpoint errors_Is_chain (e target : error) : bool :=
  bool_decide (e = target) ||
  match e with
  | ErrWrap _ inner => errors_Is_chain inner target
  | _ => false
  end.

Definition errors_Is (err : option error) (target : error) : bool :=
  match err with
  | None => false
  | Some e => errors_Is_chain e target
  end.

(** A Go result pair [(v, err)]. *)
Inductive Result (A : Type) : Type :=
| Ok (v : A)
| Err (e : error).
Arguments Ok {A} v.
Arguments Err {A} e.

(** ** Data model *)

(** A [net.Conn], identified by a number. *)
Definition Conn := nat.

(** [net/url.URL], the fields that matter for a proxied request. *)
Record url_URL : Type := mkURL {
  Scheme : string;
  Host : string;
  Path : string;
  RawQuery : string;
  Fragment : string
}.

Definition set_Scheme (s : string) (u : url_URL) : url_URL :=
  mkURL s (Host u) (Path u) (RawQuery u) (Fragment u).

(** The value stored in the request context under ["http-conn"], as seen
    by the type assertion [.(net.Conn)]. *)
Inductive CtxValue : Type :=
| CtxMissing                     (* no value: the interface is nil *)
| CtxOther                       (* a value that is not a net.Conn *)
| CtxConn (c : Conn).

(** [*http.Request].  [URL] is a pointer: an address in the store of URL
    objects kept in the world. *)
Record http_Request : Type := mkRequest {
  RemoteAddr : string;
  Header : gmap string (list string);
  URL : nat;
  Vars : gmap string string;          (* mux.Vars(r) *)
  CtxHTTPConn : CtxValue              (* r.Context().Value("http-conn") *)
}.

Definition set_URL (p : nat) (r : http_Request) : http_Request :=
  mkRequest (RemoteAddr r) (Header r) p (Vars r) (CtxHTTPConn r).

(** [r.Header.Get(key)]: the first value stored under [key], or the empty
    string.  The two keys used by the source, [X-Namespace] and [X-Path],
    are already in canonical form. *)
Definition Header_Get (h : gmap string (list string)) (key : string) : string :=
  match h !! key with
  | Some (v :: _) => v
  | _ => EmptyString
  end.

(** Indexing a Go [map[string]string]: the zero value on a missing key. *)
Definition map_index (m : gmap string string) (key : string) : string :=
  default EmptyString (m !! key).

(** What the client of a virtual request receives. *)
Record Response : Type := mkResponse {
  StatusCode : Z;
  Body : string
}.

(** [http.ResponseWriter].  [Hijacker] is [None] when the writer does not
    implement [http.Hijacker], and otherwise holds what [Hijack()]
    returns; [hijacked] and [written] are the writer's state. *)
Record ResponseWriter : Type := mkWriter {
  Hijacker : option (Result Conn);
  hijacked : bool;
  written : option Response
}.

Definition StatusInternalServerError : Z := 500.

(** [server.Server]: the session registry and the device name used for
    session routing. *)
Record Server : Type := mkServer {
  Sessions : gmap string Conn;
  deviceName : string
}.

(** [agent.authData] and [agent.serverInfo], the fields read in
    [main.go]. *)
Record AuthData : Type := mkAuthData {
  Namespace : string;
  Name : string
}.

Record InfoEndpoints : Type := mkEndpoints { SSH : string }.
Record ServerInfo : Type := mkServerInfo { Endpoints : InfoEndpoints }.

Record Agent : Type := mkAgent {
  authData : AuthData;
  serverInfo : ServerInfo;
  sessions : list string
}.

(** [ConfigOptions] of [main.go]. *)
Record ConfigOptions : Type := mkConfig {
  ServerAddress : string;
  PrivateKey : string;
  TenantID : string;
  KeepAliveInterval : Z;
  PreferredHostname : string;
  PreferredIdentity : string;
  SingleUserPassword : string;
  LogLevel : string
}.

(** ** Observable events *)

(** logrus levels. *)
Inductive Level : Type :=
| PanicLevel | FatalLevel | ErrorLevel | WarnLevel | InfoLevel | DebugLevel | TraceLevel.

(** How the shell/SFTP subsystem stopped handling a stream. *)
Inductive Termination : Type :=
| SessionFinished
| ProtocolError
| PeerDisconnect.

(** The calls the program makes on its collaborators, in the order in
    which it makes them.  Times are nanoseconds, as in [time.Duration]. *)
Inductive Event : Type :=
| EvLog (lvl : Level) (err : option error) (fields : list (string * string)) (msg : string)
| EvHTTPError (msg : string) (code : Z)              (* http.Error(w, msg, code) *)
| EvNetDial (network address : string)               (* net.Dial *)
| EvRequestWrite (c : Conn) (u : url_URL) (err : option error)   (* r.Write(in) *)
| EvHijack                                           (* Hijack() on the writer *)
| EvCopy (dst src : Conn) (err : option error)       (* io.Copy(dst, src) *)
| EvClose (c : Conn)                                 (* c.Close() *)
| EvHandleConn (c : Conn) (how : Termination)        (* serv.HandleConn(c) *)
| EvCloseSession (id : string)                       (* serv.CloseSession(id) *)
| EvPanic (msg : string)
| EvExit (code : Z)                                  (* os.Exit(code) *)
| EvSetLevel (lvl : Level)                           (* log.SetLevel *)
| EvNewAgent
| EvInitialize
| EvNewServer
| EvSetDeviceName (name : string)                    (* serv.SetDeviceName *)
| EvDial (t : N)                                     (* agent.newReverseListener() *)
| EvSleep (t d : N)                                  (* time.Sleep(d), called at t *)
| EvListen (t : N)                                   (* tun.Listen(listener) *)
| EvListenReturn (t : N) (err : option error)
| EvAuthorize (ids : list string).                   (* agent.authorize() *)

(** An event that reports a failure: an entry logged at warning level or
    worse, an error reply, a panic or a process exit. *)
Definition is_error_event (e : Event) : bool :=
  match e with
  | EvLog (PanicLevel | FatalLevel | ErrorLevel | WarnLevel) _ _ _ => true
  | EvHTTPError _ _ => true
  | EvPanic _ => true
  | EvExit _ => true
  | _ => false
  end.

(** An error reply of a handler: an entry logged at error level or a call
    of [http.Error]. *)
Definition is_error_reply (e : Event) : bool :=
  match e with
  | EvLog ErrorLevel _ _ _ => true
  | EvHTTPError _ _ => true
  | _ => false
  end.

Definition is_dial (e : Event) : bool :=
  match e with
  | EvDial _ => true
  | _ => false
  end.

(** ** The state the handlers work on *)

Record World : Type := mkWorld {
  serv : Server;
  closed : gset Conn;            (* connections on which Close() was called *)
  urls : list url_URL;           (* the URL objects, by address *)
  trace : list Event
}.

Definition emit (e : Event) (W : World) : World :=
  mkWorld (serv W) (closed W) (urls W) (trace W ++ [e]).

Definition set_serv (s : Server) (W : World) : World :=
  mkWorld s (closed W) (urls W) (trace W).

Definition set_urls (us : list url_URL) (W : World) : World :=
  mkWorld (serv W) (closed W) us (trace W).

(** [c.Close()]. *)
Definition Conn_Close (c : Conn) (W : World) : World :=
  emit (EvClose c) (mkWorld (serv W) ({[c]} ∪ closed W) (urls W) (trace W)).

Definition newline : string := String (Ascii.ascii_of_nat 10) EmptyString.

(** [http.Error(w, msg, code)]: on a writer that has not been hijacked the
    client receives the status [code] and the body [msg] followed by a
    newline; after a hijack the writer refuses header and body. *)
Definition http_Error (msg : string) (code : Z) (Ww : World * ResponseWriter)
  : World * ResponseWriter :=
  let (W, w) := Ww in
  let w' :=
    if hijacked w then w
    else match written w with
         | None => mkWriter (Hijacker w) false (Some (mkResponse code (msg ++ newline)))
         | Some r =>
             mkWriter (Hijacker w) false
               (Some (mkResponse (StatusCode r) (Body r ++ msg ++ newline)))
         end in
  (emit (EvHTTPError msg code) W, w').

Definition set_hijacked (w : ResponseWriter) : ResponseWriter :=
  mkWriter (Hijacker w) true (written w).

(** ** The session registry *)

(** [serv.Sessions[id] = conn]. *)
Definition Sessions_put (id : string) (c : Conn) (s : Server) : Server :=
  mkServer (<[id := c]> (Sessions s)) (deviceName s).

(** Modelled from the spec: [serv.CloseSession] belongs to the [server]
    package, which is not part of the sources at hand.  The spec's
    contract for it is [remove(id)]: delete the entry if present, a no-op
    otherwise. *)
Definition CloseSession (id : string) (s : Server) : Server :=
  mkServer (delete id (Sessions s)) (deviceName s).

(** Modelled from the spec: [serv.SetDeviceName] belongs to the [server]
    package.  It sets the device name presented to session routing. *)
Definition SetDeviceName (name : string) (s : Server) : Server :=
  mkServer (Sessions s) name.

(** Modelled from the spec: [serv.HandleConn] belongs to the [server]
    package.  It hands the stream to the shell/SFTP subsystem and blocks
    until the session ends, for whichever reason [how]; the registry is
    not its concern. *)
Definition HandleConn (c : Conn) (how : Termination) (W : World) : World :=
  emit (EvHandleConn c how) W.

(** [snapshotIDs]: the keys of the registry copied into a fresh slice
    (main.go, lines 252-255).  Go leaves the iteration order of a map
    unspecified; the order of [map_to_list] stands for one such order. *)
Definition snapshotIDs (s : Server) : list string :=
  (map_to_list (Sessions s)).*1.

(** ** The tunnel handlers (main.go, lines 125-211) *)

Section Handlers.

(** [AgentVersion] is injected at build time. *)
Variable AgentVersion : string.

(** [tun.ConnHandler] (lines 126-154).  [how] is the way in which the
    shell/SFTP subsystem will stop handling the stream. *)
Definition ConnHandler (how : Termination) (w : ResponseWriter) (r : http_Request)
    (W : World) : World * ResponseWriter :=
  match Hijacker w with
  | None =>
      http_Error "webserver doesn't support hijacking" StatusInternalServerError (W, w)
  | Some res =>
      let W := emit EvHijack W in
      match res with
      | Err _ =>
          http_Error "failed to hijack connection" StatusInternalServerError (W, w)
      | Ok _ =>
          let w := set_hijacked w in
          let vars := Vars r in
          match CtxHTTPConn r with
          | CtxConn conn =>
              let W := set_serv (Sessions_put (map_index vars "id") conn (serv W)) W in
              let W := HandleConn conn how W in
              (Conn_Close conn W, w)
          | _ =>
              (emit (EvLog WarnLevel None [("version", AgentVersion)]
                       "Type assertion failed") W, w)
          end
      end
  end.

(** The closure [replyError] of [tun.HTTPHandler] (lines 156-165). *)
Definition replyError (r : http_Request) (err : option error) (msg : string) (code : Z)
    (Ww : World * ResponseWriter) : World * ResponseWriter :=
  let (W, w) := Ww in
  let W := emit (EvLog ErrorLevel err
                   [ ("remote", RemoteAddr r);
                     ("namespace", Header_Get (Header r) "X-Namespace");
                     ("path", Header_Get (Header r) "X-Path");
                     ("version", AgentVersion) ]
                   msg) W in
  http_Error msg code (W, w).

(** What the outside world answers during one proxy exchange.
    [URL_Parse] is the method [Parse] of [net/url.URL]: it parses its
    argument as a reference relative to the receiver and returns a new
    URL object. *)
Record ProxyIO : Type := mkProxyIO {
  net_Dial : Result Conn;                              (* net.Dial("tcp", ":80") *)
  URL_Parse : url_URL -> string -> Result url_URL;     (* r.URL.Parse(...) *)
  Request_Write : option error;                        (* r.Write(in) *)
  io_Copy : option error                               (* io.Copy(out, in) *)
}.

(** [http.NewResponseController(w).Hijack()]. *)
Definition ResponseController_Hijack (w : ResponseWriter) : Result Conn :=
  match Hijacker w with
  | None => Err (ErrNew "feature not supported")
  | Some res => res
  end.

Definition nil_dereference : string :=
  "invalid memory address or nil pointer dereference".

(** [tun.HTTPHandler] (lines 155-207).  The request is returned as well:
    the handler assigns to [r.URL]. *)
Definition HTTPHandler (io : ProxyIO) (w : ResponseWriter) (r : http_Request)
    (W : World) : World * ResponseWriter * http_Request :=
  let W := emit (EvNetDial "tcp" ":80") W in
  match net_Dial io with
  | Err err =>
      (replyError r (Some err) "failed to connect to HTTP the server on device"
         StatusInternalServerError (W, w), r)
  | Ok in_ =>
      (* defer in.Close() *)
      let deferred_in := fun (Ww : World * ResponseWriter) (r : http_Request) =>
        (Conn_Close in_ (fst Ww), snd Ww, r) in
      match urls W !! URL r with
      | None => deferred_in (emit (EvPanic nil_dereference) W, w) r
      | Some base =>
          match URL_Parse io base (Header_Get (Header r) "X-Path") with
          | Err err =>
              deferred_in (replyError r (Some err) "failed to parse URL"
                             StatusInternalServerError (W, w)) r
          | Ok parsed =>
              (* url: the address of the new object *)
              let url := length (urls W) in
              let W := set_urls (urls W ++ [parsed]) W in
              (* r.URL.Scheme = "http" *)
              let W := set_urls (<[URL r := set_Scheme "http" base]> (urls W)) W in
              (* r.URL = url *)
              let r := set_URL url r in
              match urls W !! URL r with
              | None => deferred_in (emit (EvPanic nil_dereference) W, w) r
              | Some target =>
                  let W := emit (EvRequestWrite in_ target (Request_Write io)) W in
                  match Request_Write io with
                  | Some err =>
                      deferred_in
                        (replyError r (Some err) "failed to write request to the server on device"
                           StatusInternalServerError (W, w)) r
                  | None =>
                      let W := emit EvHijack W in
                      match ResponseController_Hijack w with
                      | Err err =>
                          deferred_in (replyError r (Some err) "failed to hijack connection"
                                         StatusInternalServerError (W, w)) r
                      | Ok out =>
                          let w := set_hijacked w in
                          (* defer out.Close() *)
                          let deferred_out := fun (Ww : World * ResponseWriter) =>
                            deferred_in (Conn_Close out (fst Ww), snd Ww) r in
                          let W := emit (EvCopy out in_ (io_Copy io)) W in
                          if errors_Is (io_Copy io) ErrUnexpectedEOF
                          then
                            deferred_out
                              (replyError r (io_Copy io)
                                 "failed to copy response from device service to client"
                                 StatusInternalServerError (W, w))
                          else deferred_out (W, w)
                      end
                  end
              end
          end
      end
  end.

(** [tun.CloseHandler] (lines 208-211). *)
Definition CloseHandler (w : ResponseWriter) (r : http_Request) (W : World)
    : World * ResponseWriter :=
  let vars := Vars r in
  let id := map_index vars "id" in
  (emit (EvCloseSession id) (set_serv (CloseSession id (serv W)) W), w).

End Handlers.

(** ** The reconnection goroutine (main.go, lines 215-246) *)

Definition Second : N := 1000000000%N.

(** What happens in one turn of the loop: either
    [agent.newReverseListener()] fails after [dial_time], and the sleep
    that follows lasts [oversleep] longer than asked ([time.Sleep] pauses
    for at least the duration); or it succeeds after [dial_time] and
    [tun.Listen] returns [listen_err] after [listen_time]. *)
Inductive Attempt : Type :=
| DialFails (err : error) (dial_time oversleep : N)
| DialSucceeds (dial_time listen_time : N) (listen_err : option error).

(** The loop runs forever; [supervisor] gives the events of its first
    [length its] turns, the first of which starts at time [now]. *)
Fixpoint supervisor (ag : Agent) (opts : ConfigOptions) (now : N) (its : list Attempt)
    : list Event :=
  match its with
  | [] => []
  | DialFails err dial_time oversleep :: rest =>
      EvDial now
      :: EvSleep (now + dial_time)%N (Second * 10)%N
      :: supervisor ag opts (now + dial_time + Second * 10 + oversleep)%N rest
  | DialSucceeds dial_time listen_time listen_err :: rest =>
      let namespace := Namespace (authData ag) in
      let tenantName := Name (authData ag) in
      let sshEndpoint := SSH (Endpoints (serverInfo ag)) in
      EvDial now
      :: EvLog InfoLevel None
           [ ("namespace", namespace);
             ("hostname", tenantName);
             ("server_address", ServerAddress opts);
             ("ssh_server", sshEndpoint);
             ("sshid", sshid namespace tenantName sshEndpoint) ]
           "Server connection established"
      :: EvListen (now + dial_time)%N
      :: EvListenReturn (now + dial_time + listen_time)%N listen_err
      :: supervisor ag opts (now + dial_time + listen_time)%N rest
  end.

(** The times at which the establishment attempts of a run start. *)
Definition dial_times (tr : list Event) : list N :=
  omap (fun e => match e with EvDial t => Some t | _ => None end) tr.

(** The time at which a turn hands over to the next one without having
    slept: the return of the accept loop. *)
Definition listen_return_time (now : N) (a : Attempt) : option N :=
  match a with
  | DialFails _ _ _ => None
  | DialSucceeds dial_time listen_time _ => Some (now + dial_time + listen_time)%N
  end.

(** ** The identity refresh loop (main.go, lines 249-262) *)

(** What [agent.authorize()] does on one tick: the [authData] it leaves in
    the agent and the error it returns. *)
Record AuthorizeOutcome : Type := mkAuthorize {
  auth_authData : AuthData;
  auth_err : option error
}.

Definition set_sessions (ids : list string) (ag : Agent) : Agent :=
  mkAgent (authData ag) (serverInfo ag) ids.

Definition set_authData (d : AuthData) (ag : Agent) : Agent :=
  mkAgent d (serverInfo ag) (sessions ag).

(** The body of [for range ticker.C]. *)
Definition refresh_tick (a : AuthorizeOutcome) (ag : Agent) (sv : Server)
    : Agent * Server * list Event :=
  let sessions := snapshotIDs sv in
  let ag := set_sessions sessions ag in
  let ag := set_authData (auth_authData a) ag in
  match auth_err a with
  | Some _ =>
      (ag, SetDeviceName (Name (authData ag)) sv,
       [EvAuthorize sessions; EvSetDeviceName (Name (authData ag))])
  | None => (ag, sv, [EvAuthorize sessions])
  end.

(** The first [length ticks] ticks of the loop. *)
Fixpoint refresh_loop (ticks : list AuthorizeOutcome) (ag : Agent) (sv : Server)
    : Agent * Server * list Event :=
  match ticks with
  | [] => (ag, sv, [])
  | a :: rest =>
      let '(ag1, sv1, ev1) := refresh_tick a ag sv in
      let '(ag2, sv2, ev2) := refresh_loop rest ag1 sv1 in
      (ag2, sv2, (ev1 ++ ev2)%list)
  end.

(** ** Start-up (main.go, lines 68-123 and 213) *)

(** [err.Error()]. *)
Definition Error_text (e : error) : string :=
  match e with
  | ErrUnexpectedEOF => "unexpected EOF"
  | ErrNew msg => msg
  | ErrWrap msg _ => msg
  end.

(** What the process finds when it starts.  [ParseLevel] is logrus's
    parser of level names; [NewAgent], [initialize] and [NewServer] belong
    to files and packages outside [main.go] and are taken as given. *)
Record StartupEnv : Type := mkEnv {
  envconfig_err : option error;            (* envconfig.Process("shellhub", &opts) *)
  opts : ConfigOptions;                    (* the options after processing *)
  ParseLevel : string -> Result Level;     (* log.ParseLevel *)
  Geteuid : Z;                             (* os.Geteuid() *)
  NewAgent : ConfigOptions -> Result Agent;
  initialize : Agent -> Result Agent;      (* agent.initialize() *)
  NewServer : Agent -> ConfigOptions -> Server
}.

Inductive StartupResult : Type :=
| Exited (code : Z) (tr : list Event)
| Started (ag : Agent) (sv : Server) (tr : list Event).

(** [log.Fatal(err)]: the entry, then [os.Exit(1)]. *)
Definition log_Fatal (fields : list (string * string)) (msg : string) : list Event :=
  [EvLog FatalLevel None fields msg; EvExit 1].

Definition log_Error (msg : string) : Event := EvLog ErrorLevel None [] msg.

Section Startup.

Variable AgentVersion : string.

Definition mode (o : ConfigOptions) : string :=
  if negb (String.eqb (SingleUserPassword o) EmptyString) then "single-user" else "multi-user".

(** [NewAgentServer] up to the point where the reconnection goroutine is
    launched. *)
Definition NewAgentServer_startup (env : StartupEnv) : StartupResult :=
  let o := opts env in
  match envconfig_err env with
  | Some err => Exited 1 (log_Fatal [] (Error_text err))
  | None =>
      match ParseLevel env (LogLevel o) with
      | Err _ =>
          Exited 1 [log_Error "Invalid log level has been provided."; EvExit 1]
      | Ok level =>
          let tr := [EvSetLevel level] in
          if (Geteuid env =? 0)%Z && negb (String.eqb (SingleUserPassword o) EmptyString)
          then
            Exited 1
              (tr ++ [ log_Error "ShellHub agent cannot run as root when single-user mode is enabled.";
                       log_Error "To disable single-user mode unset SHELLHUB_SINGLE_USER_PASSWORD env.";
                       EvExit 1 ])%list
          else if negb (Geteuid env =? 0)%Z && String.eqb (SingleUserPassword o) EmptyString
          then
            Exited 1
              (tr ++ [ log_Error "When running as non-root user you need to set password for single-user mode by SHELLHUB_SINGLE_USER_PASSWORD environment variable.";
                       log_Error "You can use openssl passwd utility to generate password hash. The following algorithms are supported: bsd1, apr1, sha256, sha512.";
                       log_Error "Example: SHELLHUB_SINGLE_USER_PASSWORD=$(openssl passwd -6)";
                       log_Error "See man openssl-passwd for more information.";
                       EvExit 1 ])%list
          else
            let tr :=
              (tr ++ [ EvLog InfoLevel None
                         [("version", AgentVersion); ("mode", mode o)]
                         "Starting ShellHub";
                       EvNewAgent ])%list in
            match NewAgent env o with
            | Err err => Exited 1 (tr ++ log_Fatal [] (Error_text err))%list
            | Ok agent =>
                let tr := (tr ++ [EvInitialize])%list in
                match initialize env agent with
                | Err err =>
                    Exited 1
                      (tr ++ log_Fatal [("err", Error_text err)]
                               "Failed to initialize agent")%list
                | Ok agent =>
                    let serv := NewServer env agent o in
                    let serv := SetDeviceName (Name (authData agent)) serv in
                    Started agent serv
                      (tr ++ [EvNewServer; EvSetDeviceName (Name (authData agent))])%list
                end
            end
      end
  end.

(** The events of the process: those of the start-up and, once it has
    come through, those of the reconnection goroutine, which is the only
    place where the tunnel is dialled.  (The refresh loop, which runs
    beside it, is [refresh_loop].) *)
Definition NewAgentServer (env : StartupEnv) (now : N) (its : list Attempt)
    : list Event :=
  match NewAgentServer_startup env with
  | Exited _ tr => tr
  | Started ag _ tr => (tr ++ supervisor ag (opts env) now its)%list
  end.

End Startup.

(** The configurations the start-up refuses (lines 81-100). *)
Definition fatal_configuration (env : StartupEnv) : Prop :=
  (exists e, ParseLevel env (LogLevel (opts env)) = Err e)
  \/ (Geteuid env = 0%Z /\ SingleUserPassword (opts env) <> EmptyString)
  \/ (Geteuid env <> 0%Z /\ SingleUserPassword (opts env) = EmptyString).

(** ** Notions used in the statements *)

(** The time at which the turn after [a] starts, when [a] starts at
    [now]. *)
Definition next_start (now : N) (a : Attempt) : N :=
  match a with
  | DialFails _ dial_time oversleep => (now + dial_time + Second * 10 + oversleep)%N
  | DialSucceeds dial_time listen_time _ => (now + dial_time + listen_time)%N
  end.

Fixpoint start_times (now : N) (its : list Attempt) : list N :=
  match its with
  | [] => []
  | a :: rest => now :: start_times (next_start now a) rest
  end.

(** In the run [tr], the accept loop returns at [t_ret] and the next
    establishment attempt is the very next event, at [t_next]. *)
Definition retried_at (tr : list Event) (t_ret t_next : N) : Prop :=
  exists pre err post, tr = (pre ++ EvListenReturn t_ret err :: EvDial t_next :: post)%list.

(** Every key of the registry stands for a stream that has not been
    closed. *)
Definition registry_live (W : World) : Prop :=
  forall id c, Sessions (serv W) !! id = Some c -> c ∉ closed W.

(** The ways in which [tun.ConnHandler] can fail to obtain a raw stream. *)
Inductive ConnFailure : Type :=
| NotHijackCapable          (* w is no http.Hijacker *)
| HijackFailed              (* Hijack() returned an error *)
| NoRawConn.                (* no net.Conn in the request context *)

Definition conn_failure (w : ResponseWriter) (r : http_Request) : option ConnFailure :=
  match Hijacker w with
  | None => Some NotHijackCapable
  | Some (Err _) => Some HijackFailed
  | Some (Ok _) =>
      match CtxHTTPConn r with
      | CtxConn _ => None
      | _ => Some NoRawConn
      end
  end.

(** The failures of a proxy exchange before the response writer is
    hijacked, each with the message [tun.HTTPHandler] gives for it. *)
Inductive ProxyFailure : Type :=
| DialFailed
| ParseFailed
| WriteFailed.

Definition failure_message (f : ProxyFailure) : string :=
  match f with
  | DialFailed => "failed to connect to HTTP the server on device"
  | ParseFailed => "failed to parse URL"
  | WriteFailed => "failed to write request to the server on device"
  end.

Definition proxy_failure (io : ProxyIO) (r : http_Request) (W : World)
    : option (ProxyFailure * error) :=
  match net_Dial io with
  | Err e => Some (DialFailed, e)
  | Ok _ =>
      match urls W !! URL r with
      | None => None
      | Some base =>
          match URL_Parse io base (Header_Get (Header r) "X-Path") with
          | Err e => Some (ParseFailed, e)
          | Ok _ =>
              match Request_Write io with
              | Some e => Some (WriteFailed, e)
              | None => None
              end
          end
      end
  end.

(** The message [tun.HTTPHandler] gives when the copy fails. *)
Definition copy_failure_message : string :=
  "failed to copy response from device service to client".

(** The diagnostic context [replyError] attaches to its log entry. *)
Definition diagnostic_fields (AgentVersion : string) (r : http_Request)
    : list (string * string) :=
  [ ("remote", RemoteAddr r);
    ("namespace", Header_Get (Header r) "X-Namespace");
    ("path", Header_Get (Header r) "X-Path");
    ("version", AgentVersion) ].

(** ** Concrete inputs for the examples *)

Definition version_ex : string := "v0.14.1".

Definition world_ex : World :=
  mkWorld (mkServer ∅ "device-42") ∅ [mkURL EmptyString EmptyString "/ssh/http" EmptyString EmptyString] [].

Definition writer_ex : ResponseWriter := mkWriter (Some (Ok 7)) false None.

(** A session-open request for the id [abc], carrying its connection. *)
Definition open_request_ex : http_Request :=
  mkRequest "10.0.0.1:51234" ∅ 0 {["id" := "abc"]} (CtxConn 7).

(** The same request without a connection in its context. *)
Definition open_request_noconn_ex : http_Request :=
  mkRequest "10.0.0.1:51234" ∅ 0 {["id" := "abc"]} CtxMissing.

(** A proxy request for the path [/status] in the namespace [acme]. *)
Definition proxy_request_ex : http_Request :=
  mkRequest "10.0.0.1:51234"
    (<["X-Namespace" := ["acme"]]> (<["X-Path" := ["/status"]]> ∅)) 0 ∅ (CtxConn 7).

(** [URL.Parse] on a reference that is an absolute path without query
    and fragment: the result takes scheme and host from the receiver and
    the path from the reference. *)
Definition URL_Parse_abs_path (base : url_URL) (ref : string) : Result url_URL :=
  Ok (mkURL (Scheme base) (Host base) ref EmptyString EmptyString).

Definition connection_refused : error :=
  ErrWrap "dial tcp :80: connect: connection refused" (ErrNew "connection refused").

(** The local service is down. *)
Definition io_down_ex : ProxyIO :=
  mkProxyIO (Err connection_refused) URL_Parse_abs_path None None.

(** The local service answers and the copy ends with [copy_err]. *)
Definition io_up_ex (copy_err : option error) : ProxyIO :=
  mkProxyIO (Ok 5) URL_Parse_abs_path None copy_err.

Definition agent_ex : Agent :=
  mkAgent (mkAuthData "acme" "device-42")
          (mkServerInfo (mkEndpoints "ssh.example.com:22")) [].

Definition opts_ex : ConfigOptions :=
  mkConfig "https://cloud.shellhub.io" "/etc/shellhub.key" "tenant" 30
           EmptyString EmptyString EmptyString "info".

Definition connection_lost : error := ErrNew "connection lost".

(** A parser of level names that knows the lower-case names of the
    logrus levels. *)
Definition ParseLevel_ex (s : string) : Result Level :=
  if String.eqb s "panic" then Ok PanicLevel
  else if String.eqb s "fatal" then Ok FatalLevel
  else if String.eqb s "error" then Ok ErrorLevel
  else if String.eqb s "warn" || String.eqb s "warning" then Ok WarnLevel
  else if String.eqb s "info" then Ok InfoLevel
  else if String.eqb s "debug" then Ok DebugLevel
  else if String.eqb s "trace" then Ok TraceLevel
  else Err (ErrNew "not a valid logrus Level").

(** Started by a non-root user with a password, but with the log level
    [verbose], which does not exist. *)
Definition env_bad_level_ex : StartupEnv :=
  mkEnv None
    (mkConfig "https://cloud.shellhub.io" "/etc/shellhub.key" "tenant" 30
       EmptyString EmptyString "$6$salt$hash" "verbose")
    ParseLevel_ex 1000
    (fun _ => Ok agent_ex) (fun ag => Ok ag)
    (fun _ _ => mkServer ∅ EmptyString).

(** ** Notions used for the further properties *)

(** The byte of a colon. *)
Definition colon : Ascii.ascii := Ascii.Ascii false true false true true true false false.

(** The host of an endpoint in the words of the specification: the
    endpoint with its port suffix stripped, a port suffix being a final
    colon followed by decimal digits only. *)
Definition is_digit (a : Ascii.ascii) : bool :=
  Nat.leb 48 (Ascii.nat_of_ascii a) && Nat.leb (Ascii.nat_of_ascii a) 57.

Fixpoint all_digits (s : string) : bool :=
  match s with
  | EmptyString => true
  | String a s' => is_digit a && all_digits s'
  end.

Fixpoint host_without_port_spec (sshEndpoint : string) : string :=
  match sshEndpoint with
  | EmptyString => EmptyString
  | String a s' =>
      if Ascii.eqb a colon && all_digits s'
      then EmptyString
      else String a (host_without_port_spec s')
  end.

(** How many events of a run satisfy [p]. *)
Fixpoint count_if (p : Event -> bool) (tr : list Event) : nat :=
  match tr with
  | [] => 0
  | e :: tr' => (if p e then 1 else 0) + count_if p tr'
  end.

Definition is_sleep (e : Event) : bool :=
  match e with
  | EvSleep _ _ => true
  | _ => false
  end.

Definition is_listen (e : Event) : bool :=
  match e with
  | EvListen _ => true
  | _ => false
  end.

Definition is_http_error (e : Event) : bool :=
  match e with
  | EvHTTPError _ _ => true
  | _ => false
  end.

Definition is_net_dial (e : Event) : bool :=
  match e with
  | EvNetDial _ _ => true
  | _ => false
  end.

Definition is_authorize (e : Event) : bool :=
  match e with
  | EvAuthorize _ => true
  | _ => false
  end.

(** The turn fails to establish the reverse listener. *)
Definition attempt_fails (a : Attempt) : bool :=
  match a with
  | DialFails _ _ _ => true
  | DialSucceeds _ _ _ => false
  end.

Fixpoint count_attempts (p : Attempt -> bool) (its : list Attempt) : nat :=
  match its with
  | [] => 0
  | a :: rest => (if p a then 1 else 0) + count_attempts p rest
  end.

(** The device name after the ticks [ticks], when it was [name] before:
    the name left in [authData] by the latest tick on which [authorize]
    failed. *)
Fixpoint name_after_ticks (ticks : list AuthorizeOutcome) (name : string) : string :=
  match ticks with
  | [] => name
  | a :: rest =>
      name_after_ticks rest
        (match auth_err a with
         | Some _ => Name (auth_authData a)
         | None => name
         end)
  end.

(** The start-up comes through: the options were read, the level name is
    known, the process runs as root exactly when no single-user password
    is set, and the agent could be created and initialized. *)
Definition startup_passes (env : StartupEnv) : Prop :=
  envconfig_err env = None
  /\ (exists lvl, ParseLevel env (LogLevel (opts env)) = Ok lvl)
  /\ (Geteuid env = 0%Z <-> SingleUserPassword (opts env) = EmptyString)
  /\ (exists ag ag', NewAgent env (opts env) = Ok ag /\ initialize env ag = Ok ag').

Definition startup_trace (res : StartupResult) : list Event :=
  match res with
  | Exited _ tr => tr
  | Started _ _ tr => tr
  end.

(** Started by root without a single-user password, at level [info]. *)
Definition env_root_ex : StartupEnv :=
  mkEnv None opts_ex ParseLevel_ex 0
    (fun _ => Ok agent_ex) (fun ag => Ok ag)
    (fun _ _ => mkServer ∅ EmptyString).

(** A world in which the id [abc] is already registered, for stream 3. *)
Definition world_busy_ex : World :=
  mkWorld (mkServer (<["abc" := 3]> ∅) "device-42") ∅
    [mkURL EmptyString EmptyString "/ssh/http" EmptyString EmptyString] [].

(** A session-open request whose route carries no [id]. *)
Definition open_request_noid_ex : http_Request :=
  mkRequest "10.0.0.1:51234" ∅ 0 ∅ (CtxConn 7).

(** * Properties *)

(** ** Strings *)

Lemma append_empty_r (s : string) : s ++ EmptyString = s.
Proof.
  induction s as [|a s IH]; [reflexivity |].
  change (String a (s ++ EmptyString) = String a s). now rewrite IH.
Qed.

Lemma append_assoc3 (s t u : string) : (s ++ t) ++ u = s ++ (t ++ u).
Proof.
  induction s as [|a s IH]; [reflexivity |].
  change (String a ((s ++ t) ++ u) = String a (s ++ (t ++ u))). now rewrite IH.
Qed.

Lemma Contains_cons_false (a : Ascii.ascii) (s sep : string) :
  GoStrings.Contains (String a s) sep = false ->
  GoStrings.HasPrefix (String a s) sep = false /\ GoStrings.Contains s sep = false.
Proof. simpl. intros H. apply orb_false_iff in H. exact H. Qed.

(** With a non-empty separator, [Split] never returns an empty slice. *)
Lemma Split_from_cons (sep : string) (skip : nat) (cur s : string) :
  exists x l, GoStrings.Split_from sep skip cur s = x :: l.
Proof.
  revert skip cur. induction s as [|a s IH]; intros skip cur.
  - simpl. eauto.
  - cbn [GoStrings.Split_from]. destruct skip as [|k]; [|apply IH].
    destruct (GoStrings.HasPrefix (String a s) sep); [eauto | apply IH].
Qed.

(** The first piece of a text without separator is the text itself. *)
Lemma Split_from_none (sep cur s : string) :
  GoStrings.Contains s sep = false ->
  GoStrings.Split_from sep 0 cur s = [cur ++ s].
Proof.
  revert cur. induction s as [|a s IH]; intros cur H.
  - simpl. now rewrite append_empty_r.
  - apply Contains_cons_false in H as [Hp Hc].
    cbn [GoStrings.Split_from].
    rewrite Hp, (IH _ Hc), append_assoc3. reflexivity.
Qed.



(** The first piece ends at the first colon. *)
Lemma Split_colon_first (cur host rest : string) :
  GoStrings.Contains host ":" = false ->
  GoStrings.Split_from ":" 0 cur (host ++ ":" ++ rest)
  = (cur ++ host) :: GoStrings.Split_from ":" 0 EmptyString rest.
Proof.
  revert cur. induction host as [|a host IH]; intros cur H.
  - rewrite append_empty_r. reflexivity.
  - apply Contains_cons_false in H as [Hp Hc].
    change (String a host ++ ":" ++ rest) with (String a (host ++ ":" ++ rest)).
    cbn [GoStrings.Split_from].
    assert (Hq : GoStrings.HasPrefix (String a (host ++ ":" ++ rest)) ":" = false).
    { simpl in Hp |- *. destruct (Ascii.eqb a _); [discriminate | reflexivity]. }
    rewrite Hq, (IH _ Hc), append_assoc3. reflexivity.
Qed.

Lemma sshHost_strips_port (host port : string) :
  GoStrings.Contains host ":" = false -> sshHost (host ++ ":" ++ port) = host.
Proof.
  intros H. unfold sshHost, GoStrings.Split.
  now rewrite (Split_colon_first EmptyString host port H).
Qed.

Lemma sshHost_without_port (host : string) :
  GoStrings.Contains host ":" = false -> sshHost host = host.
Proof.
  intros H. unfold sshHost, GoStrings.Split.
  now rewrite (Split_from_none ":" EmptyString host H).
Qed.

(** The replacer fills the three places of the template and scans no
    replaced text again. *)
Lemma sshid_template (namespace tenantName sshEndpoint : string) :
  sshid namespace tenantName sshEndpoint
  = namespace ++ "." ++ tenantName ++ "@" ++ sshHost sshEndpoint.
Proof.
  unfold sshid, GoStrings.Replace. generalize (sshHost sshEndpoint) as h. intros h.
  cbn. rewrite append_empty_r. reflexivity.
Qed.

Example sshid_no_rescan :
  sshid "{tenantName}" "t" "h:1" = "{tenantName}.t@h".
Proof. reflexivity. Qed.

(** For an endpoint whose host contains no colon, the identifier ends in
    that host, with or without a port suffix on the endpoint. *)
Theorem sshid_format (namespace tenantName host port : string) :
  GoStrings.Contains host ":" = false ->
  sshid namespace tenantName (host ++ ":" ++ port)
    = namespace ++ "." ++ tenantName ++ "@" ++ host
  /\ sshid namespace tenantName host
    = namespace ++ "." ++ tenantName ++ "@" ++ host
  /\ sshid "acme" "device-42" "ssh.example.com:22" = "acme.device-42@ssh.example.com".
Proof.
  intros H. rewrite !sshid_template.
  rewrite (sshHost_strips_port host port H), (sshHost_without_port host H).
  repeat split; reflexivity.
Qed.

Lemma sshid_format_witness :
  sshid "acme" "device-42" ("ssh.example.com" ++ ":" ++ "22")
    = "acme" ++ "." ++ "device-42" ++ "@" ++ "ssh.example.com"
  /\ sshid "acme" "device-42" "ssh.example.com"
    = "acme" ++ "." ++ "device-42" ++ "@" ++ "ssh.example.com"
  /\ sshid "acme" "device-42" "ssh.example.com:22" = "acme.device-42@ssh.example.com".
Proof.
  apply (sshid_format "acme" "device-42" "ssh.example.com" "22"). reflexivity.
Defined.

(** ** The reconnection goroutine *)

Lemma dial_times_supervisor (ag : Agent) (o : ConfigOptions) (its : list Attempt) :
  forall now, dial_times (supervisor ag o now its) = start_times now its.
Proof.
  induction its as [|a rest IH]; intros now; [reflexivity |].
  destruct a as [err dt over | dt lt lerr]; simpl; unfold dial_times in *; simpl;
    now rewrite IH.
Qed.

(** Two turns that follow each other: the second starts where the first
    one hands over. *)
Lemma start_times_step (its : list Attempt) :
  forall now i a t1 t2,
    its !! i = Some a ->
    start_times now its !! i = Some t1 ->
    start_times now its !! S i = Some t2 ->
    t2 = next_start t1 a.
Proof.
  induction its as [|b rest IH]; intros now i a t1 t2 Ha H1 H2; [discriminate |].
  destruct i as [|i]; simpl in *.
  - injection Ha as ->. injection H1 as ->.
    destruct rest as [|c rest]; simpl in H2; [discriminate | congruence].
  - eapply IH; eassumption.
Qed.

(** C4 (as amended). After a failed establishment attempt the goroutine
    sleeps ten seconds, so the next attempt starts at least ten seconds
    after the failed one; when the accept loop returns, the next attempt
    starts at once, at the time of the return. *)
Theorem supervisor_backoff (ag : Agent) (o : ConfigOptions) (now : N)
    (its : list Attempt) (i : nat) (a : Attempt) (t1 t2 : N) :
  its !! i = Some a ->
  dial_times (supervisor ag o now its) !! i = Some t1 ->
  dial_times (supervisor ag o now its) !! S i = Some t2 ->
  match a with
  | DialFails _ dial_time _ =>
      (t1 + Second * 10 <= t2)%N
      /\ EvSleep (t1 + dial_time)%N (Second * 10)%N ∈ supervisor ag o now its
  | DialSucceeds dial_time listen_time _ =>
      t2 = (t1 + dial_time + listen_time)%N
  end.
Proof.
  rewrite dial_times_supervisor. intros Ha H1 H2.
  pose proof (start_times_step its now i a t1 t2 Ha H1 H2) as Hn.
  destruct a as [err dt over | dt lt lerr]; simpl in Hn; [|exact Hn].
  split; [lia |].
  clear H2 Hn t2. revert now i Ha H1.
  induction its as [|b rest IH]; intros now i Ha H1; [discriminate |].
  destruct i as [|i]; simpl in Ha, H1.
  - injection Ha as ->. injection H1 as ->. simpl. set_solver.
  - specialize (IH _ _ Ha H1).
    destruct b; simpl; set_solver.
Qed.

Lemma supervisor_backoff_witness :
  (0 + Second * 10 <= 11 * Second)%N
  /\ EvSleep (0 + Second)%N (Second * 10)%N
       ∈ supervisor agent_ex opts_ex 0
           [DialFails connection_lost Second 0; DialFails connection_lost Second 0].
Proof.
  apply (supervisor_backoff agent_ex opts_ex 0
           [DialFails connection_lost Second 0; DialFails connection_lost Second 0]
           0 (DialFails connection_lost Second 0) 0 (11 * Second));
    reflexivity.
Defined.

(** C4 (as stated) fails where the accept loop returns: in this run the
    connection is lost six seconds after the start and the next attempt
    is made in the same instant, not ten seconds later. *)
Lemma accept_loop_return_retries_at_once :
  ~ (forall t_ret t_next,
       retried_at
         (supervisor agent_ex opts_ex 0
            [DialSucceeds Second (5 * Second) (Some connection_lost);
             DialSucceeds Second (5 * Second) None])
         t_ret t_next ->
       (t_ret + Second * 10 <= t_next)%N).
Proof.
  intros H.
  specialize (H (6 * Second)%N (6 * Second)%N).
  assert (Hle : (6 * Second + Second * 10 <= 6 * Second)%N).
  { apply H. unfold retried_at.
    eexists [_; _; _], _, _. reflexivity. }
  vm_compute in Hle. apply Hle. reflexivity.
Qed.

(** ** Start-up *)

Lemma eqb_empty_false (s : string) : s <> EmptyString -> String.eqb s EmptyString = false.
Proof. intros H. now apply String.eqb_neq. Qed.

(** A refused configuration ends the start-up with exit code 1, and the
    events up to there are log entries and the choice of the log level. *)
Lemma startup_refuses (V : string) (env : StartupEnv) :
  fatal_configuration env ->
  exists tr,
    NewAgentServer_startup V env = Exited 1 tr
    /\ last tr = Some (EvExit 1)
    /\ Forall (fun e => match e with
                        | EvLog _ _ _ _ | EvSetLevel _ | EvExit _ => True
                        | _ => False
                        end) tr.
Proof.
  intros Hf. unfold NewAgentServer_startup.
  destruct (envconfig_err env) as [e0|].
  { eexists. split; [reflexivity |]. split; [reflexivity |].
    repeat constructor. }
  destruct (ParseLevel env (LogLevel (opts env))) as [lvl | e] eqn:Hp.
  2:{ eexists. split; [reflexivity |]. split; [reflexivity |]. repeat constructor. }
  destruct Hf as [[e He] | [[Hroot Hpw] | [Hroot Hpw]]].
  - congruence.
  - rewrite Hroot, (eqb_empty_false _ Hpw). simpl.
    eexists. split; [reflexivity |]. split; [reflexivity |]. repeat constructor.
  - apply Z.eqb_neq in Hroot. rewrite Hroot, Hpw. simpl.
    eexists. split; [reflexivity |]. split; [reflexivity |]. repeat constructor.
Qed.

(** C9. With an invalid log level, with a single-user password while
    running as root, or without one while not running as root, the
    process exits during start-up: its last event is [os.Exit(1)], no
    agent is created and the tunnel is never dialled. *)
Theorem fatal_configuration_exits (V : string) (env : StartupEnv) (now : N)
    (its : list Attempt) :
  fatal_configuration env ->
  last (NewAgentServer V env now its) = Some (EvExit 1)
  /\ Forall (fun e => is_dial e = false) (NewAgentServer V env now its)
  /\ EvNewAgent ∉ NewAgentServer V env now its.
Proof.
  intros Hf. destruct (startup_refuses V env Hf) as (tr & Hs & Hl & Hall).
  unfold NewAgentServer. rewrite Hs. split; [exact Hl |].
  split.
  - eapply Forall_impl; [exact Hall |]. intros e He. now destruct e.
  - intros Hin. rewrite Forall_forall in Hall. exact (Hall _ Hin).
Qed.

Lemma fatal_configuration_exits_witness :
  last (NewAgentServer version_ex env_bad_level_ex 0
          [DialSucceeds Second Second None]) = Some (EvExit 1)
  /\ Forall (fun e => is_dial e = false)
        (NewAgentServer version_ex env_bad_level_ex 0 [DialSucceeds Second Second None])
  /\ EvNewAgent ∉ NewAgentServer version_ex env_bad_level_ex 0
                    [DialSucceeds Second Second None].
Proof.
  apply (fatal_configuration_exits version_ex env_bad_level_ex 0
           [DialSucceeds Second Second None]).
  left. eexists. reflexivity.
Defined.

(** ** The identity refresh loop *)

(** C10. On a tick of the refresh loop [SetDeviceName] is called exactly
    when [authorize] returns an error, with the name held in the agent's
    [authData]; when [authorize] succeeds the device name of the server is
    the one it had before the tick. *)
Theorem refresh_tick_SetDeviceName (a : AuthorizeOutcome) (ag : Agent) (sv : Server) :
  let '(ag', sv', ev) := refresh_tick a ag sv in
  ((exists name, EvSetDeviceName name ∈ ev) <-> auth_err a <> None)
  /\ (auth_err a <> None ->
      EvSetDeviceName (Name (authData ag')) ∈ ev
      /\ deviceName sv' = Name (authData ag'))
  /\ (auth_err a = None -> sv' = sv).
Proof.
  unfold refresh_tick. destruct (auth_err a) as [e|]; simpl.
  - split; [|split].
    + split; [discriminate |]. intros _. eexists.
      apply list_elem_of_further, list_elem_of_here.
    + intros _. split; [apply list_elem_of_further, list_elem_of_here | reflexivity].
    + discriminate.
  - split; [|split].
    + split; [|congruence]. intros [name Hin].
      apply list_elem_of_singleton in Hin. discriminate.
    + congruence.
    + reflexivity.
Qed.

(** ** The session registry and [tun.CloseHandler] *)

(** C7. A session-close directive applied twice: the second call finds
    the key absent and does nothing, the registry after it is the one
    after the first call, and neither call writes a response or reports
    an error. *)
Theorem CloseHandler_idempotent (w : ResponseWriter) (r : http_Request) (W : World) :
  let id := map_index (Vars r) "id" in
  let '(W1, w1) := CloseHandler w r W in
  let '(W2, w2) := CloseHandler w1 r W1 in
  Sessions (serv W1) !! id = None
  /\ serv W2 = serv W1
  /\ size (Sessions (serv W2)) = size (Sessions (serv W1))
  /\ w2 = w
  /\ trace W2 = (trace W ++ [EvCloseSession id; EvCloseSession id])%list
  /\ Forall (fun e => is_error_event e = false) [EvCloseSession id; EvCloseSession id].
Proof.
  unfold CloseHandler, CloseSession. simpl.
  assert (Hd : delete (map_index (Vars r) "id")
                 (delete (map_index (Vars r) "id") (Sessions (serv W)))
               = delete (map_index (Vars r) "id") (Sessions (serv W))).
  { apply delete_id, lookup_delete_eq. }
  repeat split.
  - apply lookup_delete_eq.
  - now rewrite Hd.
  - now rewrite Hd.
  - now rewrite <- app_assoc.
  - repeat constructor.
Qed.

(** ** [tun.ConnHandler] *)

(** What the handler does once it holds the raw connection [c]. *)
Lemma ConnHandler_bridged (V : string) (how : Termination) (w : ResponseWriter)
    (r : http_Request) (W : World) (c0 c : Conn) :
  Hijacker w = Some (Ok c0) ->
  CtxHTTPConn r = CtxConn c ->
  ConnHandler V how w r W
  = (mkWorld (Sessions_put (map_index (Vars r) "id") c (serv W))
             ({[c]} ∪ closed W) (urls W)
             (trace W ++ [EvHijack; EvHandleConn c how; EvClose c]),
     set_hijacked w).
Proof.
  intros Hh Hc. unfold ConnHandler. rewrite Hh, Hc.
  unfold Conn_Close, HandleConn, set_serv, emit. simpl.
  now rewrite <- !app_assoc.
Qed.

(** C1 (as amended). When the handling of a registered stream completes,
    for whichever reason, the stream is closed and the entry for its id
    is still in the registry: the handler puts the entry and never takes
    one away.  A session-close directive for the id removes it. *)
Theorem ConnHandler_keeps_entry (V : string) (how : Termination) (w : ResponseWriter)
    (r : http_Request) (W : World) (c0 c : Conn) :
  Hijacker w = Some (Ok c0) ->
  CtxHTTPConn r = CtxConn c ->
  let id := map_index (Vars r) "id" in
  let W' := (ConnHandler V how w r W).1 in
  Sessions (serv W') = <[id := c]> (Sessions (serv W))
  /\ Sessions (serv W') !! id = Some c
  /\ c ∈ closed W'
  /\ trace W' = (trace W ++ [EvHijack; EvHandleConn c how; EvClose c])%list
  /\ Sessions (serv (CloseHandler w r W').1) !! id = None.
Proof.
  intros Hh Hc. rewrite (ConnHandler_bridged V how w r W c0 c Hh Hc). simpl.
  repeat split.
  - apply lookup_insert_eq.
  - set_solver.
  - apply lookup_delete_eq.
Qed.

Lemma ConnHandler_keeps_entry_witness :
  let id := map_index (Vars open_request_ex) "id" in
  let W' := (ConnHandler version_ex PeerDisconnect writer_ex open_request_ex world_ex).1 in
  Sessions (serv W') = <[id := 7]> (Sessions (serv world_ex))
  /\ Sessions (serv W') !! id = Some 7
  /\ 7 ∈ closed W'
  /\ trace W' = (trace world_ex ++ [EvHijack; EvHandleConn 7 PeerDisconnect; EvClose 7])%list
  /\ Sessions (serv (CloseHandler writer_ex open_request_ex W').1) !! id = None.
Proof.
  apply (ConnHandler_keeps_entry version_ex PeerDisconnect writer_ex open_request_ex
           world_ex 7 7); reflexivity.
Defined.

(** C1 (as stated) fails: after the peer of session [abc] has hung up and
    the handler has returned, the registry still holds the key [abc], and
    the stream it names is closed. *)
Lemma ConnHandler_leaves_stale_entry :
  let W' := (ConnHandler version_ex PeerDisconnect writer_ex open_request_ex world_ex).1 in
  ~ (Sessions (serv W') !! "abc" = None) /\ ~ registry_live W'.
Proof.
  rewrite (ConnHandler_bridged version_ex PeerDisconnect writer_ex open_request_ex
             world_ex 7 7 eq_refl eq_refl).
  assert (Hid : map_index (Vars open_request_ex) "id" = "abc") by reflexivity.
  rewrite Hid. cbn [fst serv Sessions Sessions_put]. split.
  - rewrite lookup_insert_eq. discriminate.
  - intros Hlive. apply (Hlive "abc" 7); cbn [serv Sessions closed].
    + apply lookup_insert_eq.
    + set_solver.
Qed.

(** C5 (as amended). When the writer cannot be hijacked, or hijacking
    fails, the handler answers with status 500 before it returns; when
    the request context holds no connection the handler logs a warning
    and returns without writing a response.  In all three cases the
    registry is left as it was. *)
Theorem ConnHandler_failure (V : string) (how : Termination) (w : ResponseWriter)
    (r : http_Request) (W : World) (f : ConnFailure) :
  hijacked w = false ->
  written w = None ->
  conn_failure w r = Some f ->
  let '(W', w') := ConnHandler V how w r W in
  serv W' = serv W
  /\ match f with
     | NotHijackCapable =>
         written w' = Some (mkResponse 500 ("webserver doesn't support hijacking" ++ newline))
     | HijackFailed =>
         written w' = Some (mkResponse 500 ("failed to hijack connection" ++ newline))
     | NoRawConn =>
         written w' = None
         /\ trace W' = (trace W ++ [EvHijack;
                                    EvLog WarnLevel None [("version", V)]
                                      "Type assertion failed"])%list
     end.
Proof.
  intros Hj Hw Hf. unfold conn_failure in Hf. unfold ConnHandler.
  destruct (Hijacker w) as [[c0 | e] |].
  - destruct (CtxHTTPConn r); inversion Hf; subst; simpl;
      (split; [reflexivity |]); (split; [exact Hw | now rewrite <- app_assoc]).
  - inversion Hf; subst. simpl. rewrite Hj, Hw. simpl. split; reflexivity.
  - inversion Hf; subst. simpl. rewrite Hj, Hw. simpl. split; reflexivity.
Qed.

Lemma ConnHandler_failure_witness :
  let '(W', w') :=
    ConnHandler version_ex SessionFinished (mkWriter None false None) open_request_ex world_ex in
  serv W' = serv world_ex
  /\ written w' = Some (mkResponse 500 ("webserver doesn't support hijacking" ++ newline)).
Proof.
  apply (ConnHandler_failure version_ex SessionFinished (mkWriter None false None)
           open_request_ex world_ex NotHijackCapable); reflexivity.
Defined.

(** C5 (as stated) fails where the connection cannot be recovered from
    the request: the handler returns and no response has been written. *)
Lemma ConnHandler_no_conn_no_reply :
  conn_failure writer_ex open_request_noconn_ex = Some NoRawConn
  /\ ~ (exists body,
          written (ConnHandler version_ex SessionFinished writer_ex
                     open_request_noconn_ex world_ex).2
          = Some (mkResponse StatusInternalServerError body))
  /\ ~ (exists msg code,
          EvHTTPError msg code
            ∈ trace (ConnHandler version_ex SessionFinished writer_ex
                       open_request_noconn_ex world_ex).1).
Proof.
  split; [reflexivity |]. split.
  - intros [body H]. discriminate H.
  - intros (msg & code & H). simpl in H.
    apply elem_of_cons in H as [H | H]; [discriminate |].
    apply list_elem_of_singleton in H. discriminate.
Qed.

(** ** [tun.HTTPHandler] *)

(** The store of URL objects after [url] has been allocated and the
    scheme of the object behind the old [r.URL] has been assigned. *)
Lemma urls_new_object (us : list url_URL) (p : nat) (base x parsed : url_URL) :
  us !! p = Some base ->
  <[p := x]> (us ++ [parsed])%list !! length us = Some parsed.
Proof.
  intros Hp. apply lookup_lt_Some in Hp.
  rewrite list_lookup_insert_ne by lia.
  rewrite lookup_app_r by lia. now rewrite Nat.sub_diag.
Qed.

Lemma urls_old_object (us : list url_URL) (p : nat) (base x parsed : url_URL) :
  us !! p = Some base ->
  <[p := x]> (us ++ [parsed])%list !! p = Some x.
Proof.
  intros Hp. apply lookup_lt_Some in Hp.
  apply list_lookup_insert_eq. rewrite length_app. simpl. lia.
Qed.

(** Rewrites the outcomes of the collaborators into the handler's body. *)
Ltac enter_HTTPHandler Hd Hu Hp :=
  unfold HTTPHandler; rewrite Hd;
  cbn [urls emit set_urls trace serv closed];
  rewrite Hu, Hp;
  cbn [urls emit set_urls trace serv closed URL set_URL];
  rewrite (urls_new_object _ _ _ _ _ Hu).

Ltac in_trace := cbn; repeat rewrite elem_of_app; repeat rewrite elem_of_cons; tauto.

(** Whenever the exchange gets as far as writing the request, the URL of
    the request written is the object returned by [Parse], whatever its
    scheme; the scheme [http] has been assigned to the object the request
    pointed to before. *)
Lemma HTTPHandler_writes_parsed (V : string) (io : ProxyIO) (w : ResponseWriter)
    (r : http_Request) (W : World) (c : Conn) (base parsed : url_URL) :
  net_Dial io = Ok c ->
  urls W !! URL r = Some base ->
  URL_Parse io base (Header_Get (Header r) "X-Path") = Ok parsed ->
  let '(W', w', r') := HTTPHandler V io w r W in
  EvRequestWrite c parsed (Request_Write io) ∈ trace W'
  /\ urls W' !! URL r' = Some parsed
  /\ urls W' !! URL r = Some (set_Scheme "http" base).
Proof.
  intros Hd Hu Hp. enter_HTTPHandler Hd Hu Hp.
  pose proof (urls_new_object _ _ _ (set_Scheme "http" base) parsed Hu) as Hn.
  pose proof (urls_old_object _ _ _ (set_Scheme "http" base) parsed Hu) as Ho.
  destruct (Request_Write io) as [ew|].
  { cbn. repeat split; [in_trace | exact Hn | exact Ho]. }
  destruct (ResponseController_Hijack w) as [out | eh].
  2:{ cbn. repeat split; [in_trace | exact Hn | exact Ho]. }
  destruct (errors_Is (io_Copy io) ErrUnexpectedEOF).
  - cbn. repeat split; [in_trace | exact Hn | exact Ho].
  - cbn. repeat split; [in_trace | exact Hn | exact Ho].
Qed.

(** C6. The request written to the local service at the input where the
    claim fails: the request arrives with the URL [/ssh/http] (no scheme)
    and [X-Path: /status], and every call succeeds.  The request written
    has the path [/status] and an empty scheme; the scheme [http] has
    been assigned to the URL object the request pointed to on arrival,
    which the request no longer uses. *)
Theorem HTTPHandler_written_scheme :
  let '(W', w', r') :=
    HTTPHandler version_ex (io_up_ex None) writer_ex proxy_request_ex world_ex in
  EvRequestWrite 5 (mkURL EmptyString EmptyString "/status" EmptyString EmptyString) None
    ∈ trace W'
  /\ urls W' !! URL r'
     = Some (mkURL EmptyString EmptyString "/status" EmptyString EmptyString)
  /\ urls W' !! URL proxy_request_ex
     = Some (mkURL "http" EmptyString "/ssh/http" EmptyString EmptyString)
  /\ Scheme (mkURL EmptyString EmptyString "/status" EmptyString EmptyString) <> "http".
Proof.
  pose proof (HTTPHandler_writes_parsed version_ex (io_up_ex None) writer_ex
                proxy_request_ex world_ex 5
                (mkURL EmptyString EmptyString "/ssh/http" EmptyString EmptyString)
                (mkURL EmptyString EmptyString "/status" EmptyString EmptyString)
                eq_refl eq_refl eq_refl) as H.
  destruct (HTTPHandler version_ex (io_up_ex None) writer_ex proxy_request_ex world_ex)
    as [[W' w'] r'].
  destruct H as (H1 & H2 & H3). repeat split; try assumption. discriminate.
Qed.

(** The fields of the log entry are read from parts of the request the
    handler does not assign to. *)
Lemma diagnostic_fields_set_URL (V : string) (p : nat) (r : http_Request) :
  diagnostic_fields V (set_URL p r) = diagnostic_fields V r.
Proof. reflexivity. Qed.

(** C3 (as amended). When the exchange fails before the hijack (the dial,
    the parsing of the URL or the writing of the request fails), the
    client receives a response with status 500 whose body is the fixed
    message for the step that failed; the remote address, the namespace
    and the path are fields of the entry logged at error level, not part
    of the response. *)
Theorem HTTPHandler_failure_before_hijack (V : string) (io : ProxyIO)
    (w : ResponseWriter) (r : http_Request) (W : World) (f : ProxyFailure) (e : error) :
  hijacked w = false ->
  written w = None ->
  proxy_failure io r W = Some (f, e) ->
  let '(W', w', r') := HTTPHandler V io w r W in
  written w' = Some (mkResponse 500 (failure_message f ++ newline))
  /\ EvLog ErrorLevel (Some e) (diagnostic_fields V r) (failure_message f) ∈ trace W'
  /\ EvHTTPError (failure_message f) 500 ∈ trace W'.
Proof.
  intros Hj Hw Hf. unfold proxy_failure in Hf.
  destruct (net_Dial io) as [c | ed] eqn:Hd.
  2:{ inversion Hf; subst. unfold HTTPHandler. rewrite Hd.
      cbn. rewrite Hj, Hw. repeat split; in_trace. }
  destruct (urls W !! URL r) as [base|] eqn:Hu; [|discriminate].
  destruct (URL_Parse io base (Header_Get (Header r) "X-Path")) as [parsed | ep] eqn:Hp.
  2:{ inversion Hf; subst. unfold HTTPHandler. rewrite Hd.
      cbn [urls emit set_urls trace serv closed]. rewrite Hu, Hp.
      cbn. rewrite Hj, Hw. repeat split; in_trace. }
  destruct (Request_Write io) as [ew|] eqn:Hwr; [|discriminate].
  inversion Hf; subst. enter_HTTPHandler Hd Hu Hp. rewrite Hwr.
  cbn. rewrite Hj, Hw. repeat split; in_trace.
Qed.

Lemma HTTPHandler_failure_before_hijack_witness :
  let '(W', w', r') :=
    HTTPHandler version_ex io_down_ex writer_ex proxy_request_ex world_ex in
  written w' = Some (mkResponse 500 (failure_message DialFailed ++ newline))
  /\ EvLog ErrorLevel (Some connection_refused)
       (diagnostic_fields version_ex proxy_request_ex) (failure_message DialFailed)
       ∈ trace W'
  /\ EvHTTPError (failure_message DialFailed) 500 ∈ trace W'.
Proof.
  apply (HTTPHandler_failure_before_hijack version_ex io_down_ex writer_ex
           proxy_request_ex world_ex DialFailed connection_refused); reflexivity.
Defined.

(** C3 (as stated) fails: for the path [/status] and the namespace [acme],
    with the local service down, the response has status 500 and its body
    contains neither [acme] nor [/status]; both are in the log entry. *)
Lemma proxy_error_response_lacks_context :
  let '(W', w', r') :=
    HTTPHandler version_ex io_down_ex writer_ex proxy_request_ex world_ex in
  ~ (exists resp, written w' = Some resp
                  /\ GoStrings.Contains (Body resp) "acme" = true
                  /\ GoStrings.Contains (Body resp) "/status" = true)
  /\ (exists resp, written w' = Some resp
                   /\ StatusCode resp = 500%Z
                   /\ GoStrings.Contains (Body resp) "acme" = false
                   /\ GoStrings.Contains (Body resp) "/status" = false)
  /\ diagnostic_fields version_ex proxy_request_ex
     = [ ("remote", "10.0.0.1:51234"); ("namespace", "acme");
         ("path", "/status"); ("version", version_ex) ].
Proof.
  split; [|split].
  - intros (resp & Hr & Ha & _). inversion Hr; subst. discriminate Ha.
  - eexists. repeat split; reflexivity.
  - reflexivity.
Qed.

(** The events of an exchange that reaches the copy. *)
Lemma HTTPHandler_copy_trace (V : string) (io : ProxyIO) (w : ResponseWriter)
    (r : http_Request) (W : World) (c out : Conn) (base parsed : url_URL) :
  net_Dial io = Ok c ->
  urls W !! URL r = Some base ->
  URL_Parse io base (Header_Get (Header r) "X-Path") = Ok parsed ->
  Request_Write io = None ->
  Hijacker w = Some (Ok out) ->
  trace (HTTPHandler V io w r W).1.1
  = (trace W
     ++ [EvNetDial "tcp" ":80"; EvRequestWrite c parsed None; EvHijack;
         EvCopy out c (io_Copy io)]
     ++ (if errors_Is (io_Copy io) ErrUnexpectedEOF
         then [ EvLog ErrorLevel (io_Copy io) (diagnostic_fields V r) copy_failure_message;
                EvHTTPError copy_failure_message 500 ]
         else [])
     ++ [EvClose out; EvClose c])%list.
Proof.
  intros Hd Hu Hp Hwr Hh. enter_HTTPHandler Hd Hu Hp. rewrite Hwr.
  unfold ResponseController_Hijack. rewrite Hh.
  destruct (errors_Is (io_Copy io) ErrUnexpectedEOF); cbn;
    now rewrite <- !app_assoc.
Qed.

(** C2 (as amended). When the exchange reaches the copy, the handler
    makes its error reply (an entry at error level and [http.Error] with
    status 500) when the error of the copy is, or wraps, the unexpected
    end of stream; when the copy succeeds or ends with any other error it
    reports nothing.  Both connections are closed either way. *)
Theorem HTTPHandler_copy_outcome (V : string) (io : ProxyIO) (w : ResponseWriter)
    (r : http_Request) (W : World) (c out : Conn) (base parsed : url_URL) :
  net_Dial io = Ok c ->
  urls W !! URL r = Some base ->
  URL_Parse io base (Header_Get (Header r) "X-Path") = Ok parsed ->
  Request_Write io = None ->
  Hijacker w = Some (Ok out) ->
  exists evs,
    trace (HTTPHandler V io w r W).1.1 = (trace W ++ evs)%list
    /\ (if errors_Is (io_Copy io) ErrUnexpectedEOF
        then EvLog ErrorLevel (io_Copy io) (diagnostic_fields V r) copy_failure_message ∈ evs
             /\ EvHTTPError copy_failure_message 500 ∈ evs
        else Forall (fun e => is_error_reply e = false) evs)
    /\ EvClose out ∈ evs
    /\ EvClose c ∈ evs.
Proof.
  intros Hd Hu Hp Hwr Hh.
  rewrite (HTTPHandler_copy_trace V io w r W c out base parsed Hd Hu Hp Hwr Hh).
  eexists. split; [reflexivity |].
  destruct (errors_Is (io_Copy io) ErrUnexpectedEOF).
  - repeat split; in_trace.
  - split; [repeat constructor | split; in_trace].
Qed.

Lemma HTTPHandler_copy_outcome_witness :
  exists evs,
    trace (HTTPHandler version_ex (io_up_ex (Some (ErrNew "broken pipe"))) writer_ex
             proxy_request_ex world_ex).1.1
    = (trace world_ex ++ evs)%list
    /\ Forall (fun e => is_error_reply e = false) evs
    /\ EvClose 7 ∈ evs
    /\ EvClose 5 ∈ evs.
Proof.
  apply (HTTPHandler_copy_outcome version_ex (io_up_ex (Some (ErrNew "broken pipe")))
           writer_ex proxy_request_ex world_ex 5 7
           (mkURL EmptyString EmptyString "/ssh/http" EmptyString EmptyString)
           (mkURL EmptyString EmptyString "/status" EmptyString EmptyString));
    reflexivity.
Defined.

(** C2 (as stated) fails: when the copy ends with the unexpected end of
    stream, the handler logs it at error level and calls [http.Error]
    with status 500. *)
Lemma unexpected_EOF_is_reported :
  ~ Forall (fun e => is_error_reply e = false)
      (trace (HTTPHandler version_ex (io_up_ex (Some ErrUnexpectedEOF)) writer_ex
                proxy_request_ex world_ex).1.1).
Proof.
  rewrite (HTTPHandler_copy_trace version_ex (io_up_ex (Some ErrUnexpectedEOF)) writer_ex
             proxy_request_ex world_ex 5 7
             (mkURL EmptyString EmptyString "/ssh/http" EmptyString EmptyString)
             (mkURL EmptyString EmptyString "/status" EmptyString EmptyString)
             eq_refl eq_refl eq_refl eq_refl eq_refl).
  intros H. rewrite Forall_forall in H.
  specialize (H (EvHTTPError copy_failure_message 500)).
  assert (Hin : EvHTTPError copy_failure_message 500
                ∈ (trace world_ex
                   ++ [EvNetDial "tcp" ":80";
                       EvRequestWrite 5
                         (mkURL EmptyString EmptyString "/status" EmptyString EmptyString) None;
                       EvHijack; EvCopy 7 5 (io_Copy (io_up_ex (Some ErrUnexpectedEOF)))]
                   ++ [ EvLog ErrorLevel (io_Copy (io_up_ex (Some ErrUnexpectedEOF)))
                          (diagnostic_fields version_ex proxy_request_ex)
                          copy_failure_message;
                        EvHTTPError copy_failure_message 500 ]
                   ++ [EvClose 7; EvClose 5])%list).
  { repeat rewrite elem_of_app. repeat rewrite elem_of_cons. tauto. }
  specialize (H Hin). discriminate H.
Qed.

(** * Further properties *)

(** ** The connection identifier for arbitrary endpoints *)

Lemma HasPrefix_colon (a : Ascii.ascii) (s : string) :
  GoStrings.HasPrefix (String a s) ":" = Ascii.eqb a colon.
Proof. simpl. now destruct (Ascii.eqb a _). Qed.

(** The first piece of a split at colons: it extends [cur] by a text
    without colon, which is all of [s] or is followed by a colon in [s]. *)
Lemma Split_from_colon_head (s : string) :
  forall cur,
  exists h,
    index0 (GoStrings.Split_from ":" 0 cur s) = cur ++ h
    /\ GoStrings.Contains h ":" = false
    /\ (s = h \/ exists rest, s = h ++ ":" ++ rest).
Proof.
  induction s as [|a s IH]; intros cur.
  - exists EmptyString. simpl. rewrite append_empty_r. auto.
  - cbn [GoStrings.Split_from]. rewrite HasPrefix_colon.
    destruct (Ascii.eqb a colon) eqn:Ha.
    + apply Ascii.eqb_eq in Ha. subst a.
      exists EmptyString. simpl. rewrite append_empty_r.
      repeat split. right. exists s. reflexivity.
    + destruct (IH (cur ++ String a EmptyString)) as (h & Hi & Hc & Hs).
      exists (String a h). rewrite Hi, append_assoc3. split; [reflexivity |].
      split.
      * cbn [GoStrings.Contains]. rewrite HasPrefix_colon, Ha, Hc. reflexivity.
      * destruct Hs as [-> | [rest ->]]; [left; reflexivity |].
        right. exists rest. reflexivity.
Qed.

(** X1. For every SSH endpoint, also one with several colons or none,
    the host used in the identifier is the part of the endpoint before
    its first colon: it contains no colon, and the endpoint is that host
    alone or that host followed by a colon and the rest. *)
Theorem sshHost_before_first_colon (sshEndpoint : string) :
  GoStrings.Contains (sshHost sshEndpoint) ":" = false
  /\ (sshEndpoint = sshHost sshEndpoint
      \/ exists rest, sshEndpoint = sshHost sshEndpoint ++ ":" ++ rest).
Proof.
  unfold sshHost, GoStrings.Split.
  destruct (Split_from_colon_head sshEndpoint EmptyString) as (h & Hi & Hc & Hs).
  rewrite Hi. change (EmptyString ++ h) with h. auto.
Qed.

Lemma length_append (s t : string) :
  String.length (s ++ t) = String.length s + String.length t.
Proof.
  induction s as [|a s IH]; [reflexivity |].
  change (S (String.length (s ++ t)) = S (String.length s + String.length t)).
  now rewrite IH.
Qed.

(** X2. Whatever the namespace, the tenant name and the endpoint are,
    also when they contain the text of a placeholder, each placeholder of
    the template is filled once and the text filled in is not expanded
    again: the identifier is the namespace, a dot, the tenant name, an at
    sign and the host, and it is two bytes longer than the three
    together. *)
Theorem sshid_fills_each_place_once (namespace tenantName sshEndpoint : string) :
  sshid namespace tenantName sshEndpoint
    = namespace ++ "." ++ tenantName ++ "@" ++ sshHost sshEndpoint
  /\ String.length (sshid namespace tenantName sshEndpoint)
     = String.length namespace + String.length tenantName
       + String.length (sshHost sshEndpoint) + 2.
Proof.
  rewrite sshid_template. split; [reflexivity |].
  rewrite !length_append. simpl. lia.
Qed.

(** ** [tun.ConnHandler]: id reuse, missing id, failure paths *)

(** X3. A session-open directive for an id that is already registered
    replaces the entry: the id then names the new stream, the stream it
    named before is not closed by the handler, the other entries and the
    size of the registry are unchanged, and the only connection the
    handler closes is the new one. *)
Theorem ConnHandler_overwrites (V : string) (how : Termination) (w : ResponseWriter)
    (r : http_Request) (W : World) (c0 c c_old : Conn) :
  Hijacker w = Some (Ok c0) ->
  CtxHTTPConn r = CtxConn c ->
  Sessions (serv W) !! map_index (Vars r) "id" = Some c_old ->
  c_old <> c ->
  let id := map_index (Vars r) "id" in
  let W' := (ConnHandler V how w r W).1 in
  Sessions (serv W') !! id = Some c
  /\ (c_old ∈ closed W' <-> c_old ∈ closed W)
  /\ (forall x, x ∈ closed W' <-> x = c \/ x ∈ closed W)
  /\ (forall id', id' <> id -> Sessions (serv W') !! id' = Sessions (serv W) !! id')
  /\ size (Sessions (serv W')) = size (Sessions (serv W)).
Proof.
  intros Hh Hc Hold Hne. rewrite (ConnHandler_bridged V how w r W c0 c Hh Hc).
  cbn [fst serv Sessions Sessions_put closed]. repeat split.
  - apply lookup_insert_eq.
  - set_solver.
  - set_solver.
  - set_solver.
  - set_solver.
  - intros id' Hid. now rewrite lookup_insert_ne.
  - apply map_size_insert_Some. eauto.
Qed.

Lemma ConnHandler_overwrites_witness :
  let id := map_index (Vars open_request_ex) "id" in
  let W' := (ConnHandler version_ex SessionFinished writer_ex open_request_ex
               world_busy_ex).1 in
  Sessions (serv W') !! id = Some 7
  /\ (3 ∈ closed W' <-> 3 ∈ closed world_busy_ex)
  /\ (forall x, x ∈ closed W' <-> x = 7 \/ x ∈ closed world_busy_ex)
  /\ (forall id', id' <> id ->
        Sessions (serv W') !! id' = Sessions (serv world_busy_ex) !! id')
  /\ size (Sessions (serv W')) = size (Sessions (serv world_busy_ex)).
Proof.
  apply (ConnHandler_overwrites version_ex SessionFinished writer_ex open_request_ex
           world_busy_ex 7 7 3); [reflexivity | reflexivity | reflexivity | lia].
Defined.

(** X4. When the route of a session-open request carries no [id], the
    handler does not refuse the request: the stream is registered under
    the empty id. *)
Theorem ConnHandler_missing_id (V : string) (how : Termination) (w : ResponseWriter)
    (r : http_Request) (W : World) (c0 c : Conn) :
  Hijacker w = Some (Ok c0) ->
  CtxHTTPConn r = CtxConn c ->
  Vars r !! "id" = None ->
  let W' := (ConnHandler V how w r W).1 in
  Sessions (serv W') = <[EmptyString := c]> (Sessions (serv W))
  /\ Sessions (serv W') !! EmptyString = Some c
  /\ EvHandleConn c how ∈ trace W'.
Proof.
  intros Hh Hc Hv. rewrite (ConnHandler_bridged V how w r W c0 c Hh Hc).
  unfold map_index. rewrite Hv. cbn [fst serv Sessions Sessions_put trace default].
  repeat split.
  - apply lookup_insert_eq.
  - rewrite elem_of_app. right. apply list_elem_of_further, list_elem_of_here.
Qed.

Lemma ConnHandler_missing_id_witness :
  let W' := (ConnHandler version_ex SessionFinished writer_ex open_request_noid_ex
               world_ex).1 in
  Sessions (serv W') = <[EmptyString := 7]> (Sessions (serv world_ex))
  /\ Sessions (serv W') !! EmptyString = Some 7
  /\ EvHandleConn 7 SessionFinished ∈ trace W'.
Proof.
  apply (ConnHandler_missing_id version_ex SessionFinished writer_ex
           open_request_noid_ex world_ex 7 7); reflexivity.
Defined.

(** X5. On each of its failure paths the handler closes no connection
    and does not call the shell/SFTP subsystem.  In particular, when the
    hijack has succeeded and the request context holds no connection, the
    hijacked connection is left open. *)
Theorem ConnHandler_failure_closes_nothing (V : string) (how : Termination)
    (w : ResponseWriter) (r : http_Request) (W : World) (f : ConnFailure) :
  conn_failure w r = Some f ->
  let W' := (ConnHandler V how w r W).1 in
  closed W' = closed W
  /\ urls W' = urls W
  /\ exists evs,
       trace W' = (trace W ++ evs)%list
       /\ Forall (fun e => match e with
                           | EvHandleConn _ _ | EvClose _ => False
                           | _ => True
                           end) evs.
Proof.
  intros Hf. unfold conn_failure in Hf. unfold ConnHandler.
  destruct (Hijacker w) as [[c0 | e] |].
  - destruct (CtxHTTPConn r); inversion Hf; subst; cbn;
      (split; [reflexivity |]); (split; [reflexivity |]);
      eexists; (split; [now rewrite <- app_assoc |]); repeat constructor.
  - cbn. split; [reflexivity |]. split; [reflexivity |].
    eexists. split; [now rewrite <- app_assoc |]. repeat constructor.
  - cbn. split; [reflexivity |]. split; [reflexivity |].
    eexists. split; [reflexivity |]. repeat constructor.
Qed.

Lemma ConnHandler_failure_closes_nothing_witness :
  let W' := (ConnHandler version_ex SessionFinished writer_ex open_request_noconn_ex
               world_ex).1 in
  closed W' = closed world_ex
  /\ urls W' = urls world_ex
  /\ exists evs,
       trace W' = (trace world_ex ++ evs)%list
       /\ Forall (fun e => match e with
                           | EvHandleConn _ _ | EvClose _ => False
                           | _ => True
                           end) evs.
Proof.
  apply (ConnHandler_failure_closes_nothing version_ex SessionFinished writer_ex
           open_request_noconn_ex world_ex NoRawConn). reflexivity.
Defined.

(** ** [tun.HTTPHandler]: all exit paths *)

(** Splits the handler into its exit paths. *)
Ltac HTTPHandler_paths io w r W :=
  unfold HTTPHandler, ResponseController_Hijack;
  destruct (net_Dial io) as [?c | ?ed];
    [ cbn [urls emit set_urls trace serv closed];
      destruct (urls W !! URL r) as [?base |];
        [ destruct (URL_Parse io _ _) as [?parsed | ?ep];
            [ cbn [urls emit set_urls trace serv closed URL set_URL];
              destruct (_ !! length (urls W)) as [?target |];
                [ destruct (Request_Write io) as [?ew |];
                    [ | destruct (Hijacker w) as [[?out | ?eh] |];
                          [ destruct (errors_Is (io_Copy io) ErrUnexpectedEOF) | | ] ]
                | ]
            | ]
        | ]
    | ].

Lemma count_if_app (p : Event -> bool) (l1 l2 : list Event) :
  count_if p (l1 ++ l2) = count_if p l1 + count_if p l2.
Proof. induction l1 as [|e l1 IH]; simpl; [reflexivity | rewrite IH; lia]. Qed.

(** X6. The connection to the local service is released on every exit
    path: once the dial has succeeded, the handler has closed that
    connection when it returns, whether it returns after a failure, a
    panic or the copy, and closing it is the last thing it does.  When
    the dial fails there is nothing to close and nothing is closed. *)
Theorem HTTPHandler_releases_local_conn (V : string) (io : ProxyIO)
    (w : ResponseWriter) (r : http_Request) (W : World) :
  let W' := (HTTPHandler V io w r W).1.1 in
  match net_Dial io with
  | Ok c => c ∈ closed W' /\ last (trace W') = Some (EvClose c)
  | Err _ => closed W' = closed W
  end.
Proof.
  HTTPHandler_paths io w r W; cbn;
    try reflexivity;
    (split; [set_solver | apply last_snoc]).
Qed.

(** X7. A proxy exchange never touches the session registry or the
    device name, whatever its outcome, and of the request it changes
    nothing but the URL pointer. *)
Theorem HTTPHandler_leaves_registry (V : string) (io : ProxyIO)
    (w : ResponseWriter) (r : http_Request) (W : World) :
  let '(W', w', r') := HTTPHandler V io w r W in
  serv W' = serv W
  /\ RemoteAddr r' = RemoteAddr r
  /\ Header r' = Header r
  /\ Vars r' = Vars r
  /\ CtxHTTPConn r' = CtxHTTPConn r.
Proof.
  HTTPHandler_paths io w r W; cbn; repeat split.
Qed.

(** X8. When the request has been written to the local service and the
    writer cannot be hijacked, the client receives status 500 with the
    message [failed to hijack connection]; nothing is copied back and the
    connection to the local service is closed. *)
Theorem HTTPHandler_hijack_failure (V : string) (io : ProxyIO) (w : ResponseWriter)
    (r : http_Request) (W : World) (c : Conn) (base parsed : url_URL) (eh : error) :
  net_Dial io = Ok c ->
  urls W !! URL r = Some base ->
  URL_Parse io base (Header_Get (Header r) "X-Path") = Ok parsed ->
  Request_Write io = None ->
  ResponseController_Hijack w = Err eh ->
  hijacked w = false ->
  written w = None ->
  let '(W', w', r') := HTTPHandler V io w r W in
  written w' = Some (mkResponse 500 ("failed to hijack connection" ++ newline))
  /\ closed W' = {[c]} ∪ closed W
  /\ trace W'
     = (trace W
        ++ [ EvNetDial "tcp" ":80"; EvRequestWrite c parsed None; EvHijack;
             EvLog ErrorLevel (Some eh) (diagnostic_fields V r)
               "failed to hijack connection";
             EvHTTPError "failed to hijack connection" 500;
             EvClose c ])%list.
Proof.
  intros Hd Hu Hp Hwr Hh Hj Hw. enter_HTTPHandler Hd Hu Hp. rewrite Hwr, Hh.
  cbn. rewrite Hj, Hw. repeat split. now rewrite <- !app_assoc.
Qed.

Lemma HTTPHandler_hijack_failure_witness :
  let '(W', w', r') :=
    HTTPHandler version_ex (io_up_ex None) (mkWriter None false None)
      proxy_request_ex world_ex in
  written w' = Some (mkResponse 500 ("failed to hijack connection" ++ newline))
  /\ closed W' = {[5]} ∪ closed world_ex
  /\ trace W'
     = (trace world_ex
        ++ [ EvNetDial "tcp" ":80";
             EvRequestWrite 5
               (mkURL EmptyString EmptyString "/status" EmptyString EmptyString) None;
             EvHijack;
             EvLog ErrorLevel (Some (ErrNew "feature not supported"))
               (diagnostic_fields version_ex proxy_request_ex)
               "failed to hijack connection";
             EvHTTPError "failed to hijack connection" 500;
             EvClose 5 ])%list.
Proof.
  apply (HTTPHandler_hijack_failure version_ex (io_up_ex None) (mkWriter None false None)
           proxy_request_ex world_ex 5
           (mkURL EmptyString EmptyString "/ssh/http" EmptyString EmptyString)
           (mkURL EmptyString EmptyString "/status" EmptyString EmptyString)
           (ErrNew "feature not supported")); reflexivity.
Defined.

(** X9. Every exchange starts by dialling the local service at [:80],
    dials once, and makes at most one error reply. *)
Theorem HTTPHandler_one_dial_one_reply (V : string) (io : ProxyIO)
    (w : ResponseWriter) (r : http_Request) (W : World) :
  exists evs,
    trace (HTTPHandler V io w r W).1.1 = (trace W ++ EvNetDial "tcp" ":80" :: evs)%list
    /\ count_if is_net_dial evs = 0
    /\ count_if is_http_error evs <= 1.
Proof.
  HTTPHandler_paths io w r W; cbn;
    rewrite <- ?app_assoc; cbn;
    (eexists; split; [reflexivity |]); cbn; split; lia.
Qed.

(** ** The reconnection goroutine: what a run consists of *)

(** X10. Whatever the outcomes of its turns, the loop goes on: a run of
    [n] turns makes [n] establishment attempts.  It sleeps once for each
    failed attempt and enters the accept loop once for each successful
    one, and never both in one turn. *)
Theorem supervisor_counts (ag : Agent) (o : ConfigOptions) (now : N)
    (its : list Attempt) :
  let tr := supervisor ag o now its in
  count_if is_dial tr = length its
  /\ count_if is_sleep tr = count_attempts attempt_fails its
  /\ count_if is_listen tr = count_attempts (fun a => negb (attempt_fails a)) its
  /\ count_if is_sleep tr + count_if is_listen tr = length its.
Proof.
  revert now. induction its as [|a rest IH]; intros now; [repeat split |].
  destruct (IH (next_start now a)) as (Hd & Hs & Hl & Hsum).
  destruct a as [err dt over | dt lt lerr]; cbn in *;
    rewrite Hd, Hs, Hl; repeat split; lia.
Qed.

Lemma start_times_failures (its : list Attempt) :
  forall now k t,
    Forall (fun a => attempt_fails a = true) (take k its) ->
    start_times now its !! k = Some t ->
    (now + N.of_nat k * (Second * 10) <= t)%N.
Proof.
  induction its as [|a rest IH]; intros now k t Hf Hk; [discriminate |].
  destruct k as [|k].
  - injection Hk as <-. simpl. lia.
  - rewrite firstn_cons in Hf. apply Forall_cons in Hf as [Ha Hf].
    destruct a as [err dt over | dt lt lerr]; [|discriminate].
    cbn in Hk. specialize (IH _ _ _ Hf Hk).
    rewrite Nat2N.inj_succ. lia.
Qed.

(** X11. Failed attempts add up: when the first [k] attempts of a run
    all fail, the attempt after them starts no earlier than [k] times ten
    seconds after the first. *)
Theorem supervisor_failures_accumulate (ag : Agent) (o : ConfigOptions) (now : N)
    (its : list Attempt) (k : nat) (t : N) :
  Forall (fun a => attempt_fails a = true) (take k its) ->
  dial_times (supervisor ag o now its) !! k = Some t ->
  (now + N.of_nat k * (Second * 10) <= t)%N.
Proof.
  rewrite dial_times_supervisor. apply start_times_failures.
Qed.

Lemma supervisor_failures_accumulate_witness :
  (0 + N.of_nat 2 * (Second * 10) <= 23 * Second)%N.
Proof.
  apply (supervisor_failures_accumulate agent_ex opts_ex 0
           [ DialFails connection_lost Second 0;
             DialFails connection_lost (2 * Second) 0;
             DialSucceeds Second Second None ] 2 (23 * Second)).
  - repeat constructor.
  - reflexivity.
Defined.

(** ** The identity refresh loop: the snapshot and the loop *)

(** X12. The list of session ids handed to [authorize] on a tick holds
    each key of the registry exactly once and nothing else, and the tick
    leaves the registry as it is. *)
Theorem refresh_tick_snapshot (a : AuthorizeOutcome) (ag : Agent) (sv : Server) :
  let '(ag', sv', ev) := refresh_tick a ag sv in
  NoDup (sessions ag')
  /\ (forall id, id ∈ sessions ag' <-> is_Some (Sessions sv !! id))
  /\ length (sessions ag') = size (Sessions sv)
  /\ EvAuthorize (sessions ag') ∈ ev
  /\ Sessions sv' = Sessions sv.
Proof.
  assert (Hin : forall id, id ∈ snapshotIDs sv <-> is_Some (Sessions sv !! id)).
  { intros id. unfold snapshotIDs. rewrite list_elem_of_fmap. split.
    - intros ([k c] & -> & Hk). apply elem_of_map_to_list in Hk. eauto.
    - intros [c Hc]. exists (id, c). split; [reflexivity |].
      now apply elem_of_map_to_list. }
  assert (Hlen : length (snapshotIDs sv) = size (Sessions sv)).
  { unfold snapshotIDs. now rewrite length_fmap, length_map_to_list. }
  unfold refresh_tick. destruct (auth_err a); cbn;
    (split; [apply NoDup_fst_map_to_list |]);
    (split; [exact Hin |]); (split; [exact Hlen |]);
    (split; [apply list_elem_of_here | reflexivity]).
Qed.

Lemma refresh_tick_effect (a : AuthorizeOutcome) (ag : Agent) (sv : Server) :
  let '(ag', sv', ev) := refresh_tick a ag sv in
  deviceName sv' = name_after_ticks [a] (deviceName sv)
  /\ Sessions sv' = Sessions sv
  /\ count_if is_authorize ev = 1.
Proof. unfold refresh_tick. destruct (auth_err a) eqn:He; cbn; rewrite He; auto. Qed.

(** X13. After any number of ticks the device name of the server is the
    name that [authorize] left in [authData] on the latest tick on which
    it failed, and the name from before the loop when it never failed;
    the loop calls [authorize] once per tick and never changes the
    registry. *)
Theorem refresh_loop_device_name (ticks : list AuthorizeOutcome) (ag : Agent)
    (sv : Server) :
  let '(ag', sv', ev) := refresh_loop ticks ag sv in
  deviceName sv' = name_after_ticks ticks (deviceName sv)
  /\ Sessions sv' = Sessions sv
  /\ count_if is_authorize ev = length ticks.
Proof.
  revert ag sv. induction ticks as [|a rest IH]; intros ag sv; [repeat split |].
  cbn [refresh_loop].
  pose proof (refresh_tick_effect a ag sv) as Ht.
  destruct (refresh_tick a ag sv) as [[ag1 sv1] ev1].
  specialize (IH ag1 sv1).
  destruct (refresh_loop rest ag1 sv1) as [[ag2 sv2] ev2].
  destruct Ht as (Hn1 & Hs1 & Hc1). destruct IH as (Hn2 & Hs2 & Hc2).
  rewrite count_if_app, Hc1, Hc2, Hn2, Hs2, Hn1, Hs1. repeat split.
Qed.

(** ** Start-up: every way through it *)

Ltac exit_trace := repeat split; try reflexivity; repeat constructor.

(** The result of the start-up, path by path. *)
Lemma startup_result (V : string) (env : StartupEnv) :
  match NewAgentServer_startup V env with
  | Started ag sv tr =>
      startup_passes env
      /\ (exists ag0, NewAgent env (opts env) = Ok ag0 /\ initialize env ag0 = Ok ag)
      /\ sv = SetDeviceName (Name (authData ag)) (NewServer env ag (opts env))
      /\ last tr = Some (EvSetDeviceName (Name (authData ag)))
      /\ Forall (fun e => is_dial e = false) tr
  | Exited code tr =>
      ~ startup_passes env
      /\ code = 1%Z
      /\ last tr = Some (EvExit 1)
      /\ Forall (fun e => is_dial e = false) tr
  end.
Proof.
  unfold NewAgentServer_startup, startup_passes.
  destruct (envconfig_err env) as [e0|] eqn:He.
  { split; [intros (H & _); discriminate | exit_trace]. }
  destruct (ParseLevel env (LogLevel (opts env))) as [lvl | e] eqn:Hp.
  2:{ split; [intros (_ & [l Hl] & _); discriminate | exit_trace]. }
  destruct (Z.eqb_spec (Geteuid env) 0) as [Hroot | Hroot];
    destruct (String.eqb_spec (SingleUserPassword (opts env)) EmptyString) as [Hpw | Hpw];
    cbn [andb negb].
  - destruct (NewAgent env (opts env)) as [ag0 | e] eqn:Hn.
    2:{ split; [intros (_ & _ & _ & ag1 & ag2 & H & _); discriminate | exit_trace]. }
    destruct (initialize env ag0) as [ag | e] eqn:Hi.
    2:{ split; [intros (_ & _ & _ & ag1 & ag2 & H1 & H2); congruence | exit_trace]. }
    split; [|split; [eauto | exit_trace]].
    repeat split; eauto.
  - split; [intros (_ & _ & [H _] & _); auto | exit_trace].
  - split; [intros (_ & _ & [_ H] & _); auto | exit_trace].
  - destruct (NewAgent env (opts env)) as [ag0 | e] eqn:Hn.
    2:{ split; [intros (_ & _ & _ & ag1 & ag2 & H & _); discriminate | exit_trace]. }
    destruct (initialize env ag0) as [ag | e] eqn:Hi.
    2:{ split; [intros (_ & _ & _ & ag1 & ag2 & H1 & H2); congruence | exit_trace]. }
    split; [|split; [eauto | exit_trace]].
    repeat split; eauto; intros; contradiction.
Qed.

(** X14. The start-up comes through exactly when the options were read,
    the log level is valid, the process runs as root if and only if no
    single-user password is set, and the agent could be created and
    initialized; in every other case it ends the process. *)
Theorem startup_succeeds_iff (V : string) (env : StartupEnv) :
  (exists ag sv tr, NewAgentServer_startup V env = Started ag sv tr)
  <-> startup_passes env.
Proof.
  pose proof (startup_result V env) as H.
  destruct (NewAgentServer_startup V env) as [code tr | ag sv tr].
  - destruct H as (Hn & _). split; [intros (? & ? & ? & ?); discriminate | tauto].
  - destruct H as (Hp & _). split; [tauto | eauto].
Qed.

(** X15. Whenever the start-up ends the process, whichever check or call
    failed, the exit code is 1 and the exit is the last thing that
    happens. *)
Theorem startup_exit_code (V : string) (env : StartupEnv) (code : Z)
    (tr : list Event) :
  NewAgentServer_startup V env = Exited code tr ->
  code = 1%Z /\ last tr = Some (EvExit 1) /\ ~ startup_passes env.
Proof.
  intros Hs. pose proof (startup_result V env) as H. rewrite Hs in H. tauto.
Qed.

Lemma startup_exit_code_witness :
  1%Z = 1%Z
  /\ last [log_Error "Invalid log level has been provided."; EvExit 1] = Some (EvExit 1)
  /\ ~ startup_passes env_bad_level_ex.
Proof.
  apply (startup_exit_code version_ex env_bad_level_ex 1
           [log_Error "Invalid log level has been provided."; EvExit 1]).
  reflexivity.
Defined.

(** X16. When the start-up comes through, the server starts with the
    device name set to the name in the [authData] of the initialized
    agent, and setting it is the last step before the goroutine is
    launched. *)
Theorem startup_sets_device_name (V : string) (env : StartupEnv) (ag : Agent)
    (sv : Server) (tr : list Event) :
  NewAgentServer_startup V env = Started ag sv tr ->
  deviceName sv = Name (authData ag)
  /\ Sessions sv = Sessions (NewServer env ag (opts env))
  /\ last tr = Some (EvSetDeviceName (Name (authData ag)))
  /\ exists ag0, NewAgent env (opts env) = Ok ag0 /\ initialize env ag0 = Ok ag.
Proof.
  intros Hs. pose proof (startup_result V env) as H. rewrite Hs in H.
  destruct H as (_ & Hag & -> & Hl & _). auto.
Qed.

Lemma startup_sets_device_name_witness :
  deviceName (mkServer ∅ "device-42") = Name (authData agent_ex)
  /\ Sessions (mkServer ∅ "device-42")
     = Sessions (NewServer env_root_ex agent_ex (opts env_root_ex))
  /\ last (startup_trace (NewAgentServer_startup version_ex env_root_ex))
     = Some (EvSetDeviceName (Name (authData agent_ex)))
  /\ exists ag0, NewAgent env_root_ex (opts env_root_ex) = Ok ag0
                 /\ initialize env_root_ex ag0 = Ok agent_ex.
Proof.
  apply (startup_sets_device_name version_ex env_root_ex agent_ex
           (mkServer ∅ "device-42")
           (startup_trace (NewAgentServer_startup version_ex env_root_ex))).
  reflexivity.
Defined.

(** X17. The tunnel is dialled only after a start-up that came through:
    a run of the process that contains an establishment attempt is the
    run of a process whose start-up passed every check. *)
Theorem dial_only_after_startup (V : string) (env : StartupEnv) (now : N)
    (its : list Attempt) (e : Event) :
  e ∈ NewAgentServer V env now its ->
  is_dial e = true ->
  startup_passes env.
Proof.
  intros Hin Hd. unfold NewAgentServer in Hin.
  pose proof (startup_result V env) as H.
  destruct (NewAgentServer_startup V env) as [code tr | ag sv tr].
  - destruct H as (_ & _ & _ & Hall). rewrite Forall_forall in Hall.
    specialize (Hall _ Hin). congruence.
  - tauto.
Qed.

Lemma dial_only_after_startup_witness : startup_passes env_root_ex.
Proof.
  apply (dial_only_after_startup version_ex env_root_ex 0
           [DialSucceeds Second Second None] (EvDial 0)).
  - unfold NewAgentServer. cbn. rewrite !elem_of_cons. tauto.
  - reflexivity.
Defined.

Ltac split_membership H :=
  repeat first [ rewrite elem_of_app in H
               | rewrite elem_of_cons in H
               | rewrite elem_of_nil in H ];
  repeat match goal with
         | H' : _ \/ _ |- _ => destruct H' as [H' | H']
         end;
  try discriminate; try contradiction.

(** X18. The mode announced in the entry [Starting ShellHub] agrees with
    the privileges of the process: it is [multi-user] exactly when the
    process runs as root, and [single-user] exactly when a single-user
    password is set. *)
Theorem startup_mode_matches_privilege (V : string) (env : StartupEnv) (m : string) :
  EvLog InfoLevel None [("version", V); ("mode", m)] "Starting ShellHub"
    ∈ startup_trace (NewAgentServer_startup V env) ->
  (m = "multi-user" <-> Geteuid env = 0%Z)
  /\ (m = "single-user" <-> SingleUserPassword (opts env) <> EmptyString).
Proof.
  unfold NewAgentServer_startup, mode, log_Fatal, log_Error.
  destruct (envconfig_err env) as [e0|].
  { intros H. cbn in H. split_membership H. }
  destruct (ParseLevel env (LogLevel (opts env))) as [lvl | e].
  2:{ intros H. cbn in H. split_membership H. }
  destruct (Z.eqb_spec (Geteuid env) 0) as [Hroot | Hroot];
    destruct (String.eqb_spec (SingleUserPassword (opts env)) EmptyString) as [Hpw | Hpw];
    cbn [andb negb].
  - destruct (NewAgent env (opts env)) as [ag0 | e];
      [destruct (initialize env ag0) as [ag | e] |];
      intros H; cbn in H; split_membership H;
      injection H as ->; (split; split; intros; try discriminate; congruence).
  - intros H. cbn in H. split_membership H.
  - intros H. cbn in H. split_membership H.
  - destruct (NewAgent env (opts env)) as [ag0 | e];
      [destruct (initialize env ag0) as [ag | e] |];
      intros H; cbn in H; split_membership H;
      injection H as ->; (split; split; intros; try discriminate; congruence).
Qed.

Lemma startup_mode_matches_privilege_witness :
  ("multi-user" = "multi-user" <-> Geteuid env_root_ex = 0%Z)
  /\ ("multi-user" = "single-user"
      <-> SingleUserPassword (opts env_root_ex) <> EmptyString).
Proof.
  apply (startup_mode_matches_privilege version_ex env_root_ex "multi-user").
  cbn. rewrite !elem_of_cons. tauto.
Defined.

(** ** The connection identifier: the host as the code takes it *)

(** C8 (as amended). The connection identifier is the namespace, a dot,
    the tenant name, an at sign and the host, where the host is the part
    of the SSH endpoint before its first colon (the whole endpoint when it
    has none).  For an endpoint made of a host without colon, a colon and
    a port this is the host with the port suffix stripped; for namespace
    [acme], tenant name [device-42] and endpoint [ssh.example.com:22] the
    identifier is [acme.device-42@ssh.example.com]. *)
Theorem sshid_host_before_first_colon (namespace tenantName sshEndpoint : string) :
  sshid namespace tenantName sshEndpoint
    = namespace ++ "." ++ tenantName ++ "@" ++ sshHost sshEndpoint
  /\ GoStrings.Contains (sshHost sshEndpoint) ":" = false
  /\ (sshEndpoint = sshHost sshEndpoint
      \/ exists rest, sshEndpoint = sshHost sshEndpoint ++ ":" ++ rest)
  /\ (forall host port,
        GoStrings.Contains host ":" = false ->
        sshEndpoint = host ++ ":" ++ port ->
        sshHost sshEndpoint = host)
  /\ sshid "acme" "device-42" "ssh.example.com:22" = "acme.device-42@ssh.example.com".
Proof.
  split; [apply sshid_template |].
  assert (Hhead : GoStrings.Contains (sshHost sshEndpoint) ":" = false
                  /\ (sshEndpoint = sshHost sshEndpoint
                      \/ exists rest, sshEndpoint = sshHost sshEndpoint ++ ":" ++ rest)).
  { unfold sshHost, GoStrings.Split.
    destruct (Split_from_colon_head sshEndpoint EmptyString) as (h & Hi & Hc & Hs).
    rewrite Hi. change (EmptyString ++ h) with h. auto. }
  destruct Hhead as [Hc Hs].
  split; [exact Hc |]. split; [exact Hs |]. split; [|reflexivity].
  intros host port Hhost ->. now apply sshHost_strips_port.
Qed.

(** C8 (as stated) fails for an endpoint whose host contains a colon: with
    the endpoint [[::1]:22] the host with the port suffix stripped is
    [[::1]], and the identifier the code builds ends in an opening
    bracket. *)
Lemma sshid_ipv6_endpoint :
  host_without_port_spec "[::1]:22" = "[::1]"
  /\ sshid "acme" "device-42" "[::1]:22" = "acme.device-42@["
  /\ sshHost "[::1]:22" <> host_without_port_spec "[::1]:22"
  /\ sshid "acme" "device-42" "[::1]:22"
     <> "acme" ++ "." ++ "device-42" ++ "@" ++ host_without_port_spec "[::1]:22".
Proof.
  split; [reflexivity |]. split; [reflexivity |].
  split; intros H; vm_compute in H; discriminate H.
Qed.
